(** * Tonnetz lattice engine of music-grid-game: a shallow embedding

    The development follows the two source files of the repository:
    [Game] embeds [src/game.js] and [Variant] embeds the second copy of the
    game script ([src/unnamed/part_000]).  Both define the classes
    [TonnetzSystem] and [TonnetzGame]; they differ in the grid cells, the
    vertex placement and the note-name table.

    JavaScript numbers are IEEE 754 binary64 values.  World coordinates are
    therefore kernel floats ([PrimFloat]), whose [+], [-], [*], [/] and
    [sqrt] are the correctly rounded binary64 operations ([Math.sqrt] is
    taken to be the correctly rounded square root, as the engines compute
    it), and whose comparisons are false on [NaN].  Loop counters,
    pitch classes and MIDI notes are small integers on which the binary64
    operations are exact; counters are [nat], pitch classes and notes are
    [Z], and the remainder operator [%] is [Z.rem] (the sign follows the
    dividend).  A property access on [undefined] throws a [TypeError]:
    fallible code lives in the [completion] monad.  Calls of [console.log]
    and of the rendering and audio libraries are left out, except where
    evaluating their arguments can throw. *)

From Stdlib Require Import ZArith List Bool Lia String PrimFloat Uint63.
From Stdlib Require Import DecimalString SpecFloat FloatOps FloatAxioms.
From Stdlib Require Import Permutation.
Import ListNotations.

Set Implicit Arguments.

(** ** JavaScript fragments used by the game script *)

Module JS.

(** The completion of a call: a value, or a thrown exception. *)
Inductive completion (A : Type) : Type :=
| Returns (a : A)
| Throws.
Arguments Returns {A} a.
Arguments Throws {A}.

Definition bind {A B} (c : completion A) (k : A -> completion B) : completion B :=
  match c with
  | Returns a => k a
  | Throws => Throws
  end.

(** [o.prop] on the result of an array read: reading past the end of an
    array gives [undefined], and a property access on it throws. *)
Definition defined {A} (o : option A) : completion A :=
  match o with
  | Some a => Returns a
  | None => Throws
  end.

(** [a[i]] on an array. *)
Definition get {A} (a : list A) (i : nat) : option A := nth_error a i.

(** [a[i] = x] on an array without holes: an index below the length
    overwrites, the index equal to the length extends the array by one.  A
    larger index would leave holes, which a list cannot hold: the model
    gives up there, and [fill_grid] below shows that the loops of the
    script never get there. *)
Definition set {A} (a : list A) (i : nat) (x : A) : completion (list A) :=
  if (i <? List.length a)%nat then Returns (firstn i a ++ x :: skipn (S i) a)
  else if (i =? List.length a)%nat then Returns (a ++ [x])
  else Throws.

(** [for (let i = from; i < from + count; i++) body], threading the state
    the body mutates. *)
Fixpoint for_range {St} (from count : nat)
    (body : nat -> St -> completion St) (s : St) : completion St :=
  match count with
  | O => Returns s
  | S k => bind (body from s) (for_range (S from) k body)
  end.

(** [for (let i = 0; i < n; i++) body]. *)
Definition for_ {St} (n : nat) (body : nat -> St -> completion St) (s : St) :
    completion St :=
  for_range 0 n body s.

(** The number a loop counter denotes; the conversion is exact below
    2^53, far above any grid size. *)
Definition num (n : nat) : float := PrimFloat.of_uint63 (Uint63.of_Z (Z.of_nat n)).

(** Values met by [+] in the triad helpers: numbers (integers here, or
    [NaN]), strings, [undefined] and plain objects. *)
Inductive value : Type :=
| VNum (n : Z)
| VNaN
| VStr (s : string)
| VUndefined
| VObject.

Definition Z_to_string (n : Z) : string := NilZero.string_of_int (Z.to_int n).

(** [ToString]; a plain object prints as [[object Object]]. *)
Definition to_string (v : value) : string :=
  match v with
  | VNum n => Z_to_string n
  | VNaN => "NaN"
  | VStr s => s
  | VUndefined => "undefined"
  | VObject => "[object Object]"
  end.

(** Does [ToPrimitive] leave a number or [undefined], rather than a
    string? *)
Definition is_numeric (v : value) : bool :=
  match v with
  | VNum _ | VNaN | VUndefined => true
  | VStr _ | VObject => false
  end.

(** The binary [+]: once either operand is a string or an object (whose
    primitive is a string) it concatenates; otherwise it adds numbers, and
    [undefined] converts to [NaN]. *)
Definition add (a b : value) : value :=
  match a, b with
  | VNum x, VNum y => VNum (x + y)%Z
  | _, _ =>
      if is_numeric a && is_numeric b then VNaN
      else VStr (to_string a ++ to_string b)%string
  end.

End JS.

Import JS.

Notation "x <- c ;; k" := (JS.bind c (fun x => k))
  (at level 61, c at next level, right associativity).

Open Scope Z_scope.

(** A position on the ground plane: [{ x, z }]. *)
Module Point.
Record t : Type := { x : float; z : float }.
End Point.

(** The type field of a triangle: ['major'] or ['minor']. *)
Inductive triadType : Type := major | minor.

Definition triadType_eqb (a b : triadType) : bool :=
  match a, b with
  | major, major | minor, minor => true
  | _, _ => false
  end.

(** ** Point location: [pointInTriangle] and [findTriangleAtPosition]

    The two methods have the same text in both files.  They read only
    [triangle.vertices] and the [x] and [z] of a vertex, so they are
    written once over any vertex and triangle type with those fields. *)

Module Locator.
Section Locator.

Variables V T : Type.
Variable position : V -> Point.t.
Variable vertices : T -> list V.

(** The local function [sign]. *)
Definition sign (p1 p2 p3 : Point.t) : float :=
  ((Point.x p1 - Point.x p3) * (Point.z p2 - Point.z p3)
   - (Point.x p2 - Point.x p3) * (Point.z p1 - Point.z p3))%float.

Definition hasNeg (d1 d2 d3 : float) : bool :=
  (d1 <? 0)%float || (d2 <? 0)%float || (d3 <? 0)%float.

Definition hasPos (d1 d2 d3 : float) : bool :=
  (0 <? d1)%float || (0 <? d2)%float || (0 <? d3)%float.

Definition pointInTriangle (px pz : float) (triangle : T) : completion bool :=
  let v := vertices triangle in
  let p := {| Point.x := px; Point.z := pz |} in
  v0 <- defined (JS.get v 0) ;;
  v1 <- defined (JS.get v 1) ;;
  let d1 := sign p (position v0) (position v1) in
  v2 <- defined (JS.get v 2) ;;
  let d2 := sign p (position v1) (position v2) in
  let d3 := sign p (position v2) (position v0) in
  Returns (negb (hasNeg d1 d2 d3 && hasPos d1 d2 d3)).

(** The loop of [findTriangleAtPosition] over [this.triangles]; [None] is
    the [null] it returns when the loop ends. *)
Fixpoint findTriangleAtPosition (triangles : list T) (x z : float) :
    completion (option T) :=
  match triangles with
  | [] => Returns None
  | triangle :: rest =>
      inside <- pointInTriangle x z triangle ;;
      if inside then Returns (Some triangle)
      else findTriangleAtPosition rest x z
  end.

End Locator.
End Locator.

(** ** [src/game.js] *)

Module Game.

(** A grid cell: [{ pitchClass, noteName }]. *)
Record GridCell : Type := {
  cell_pitchClass : Z;
  cell_noteName : string
}.

(** The fields the [TonnetzSystem] constructor sets before it generates
    the grid. *)
Record Config : Type := {
  pitchClassToName : list string;
  noteNames : list string;
  gridWidth : nat;
  gridHeight : nat;
  triangleSize : float;
  fifthInterval : Z;
  majorThirdInterval : Z;
  minorThirdInterval : Z
}.

Definition flatNames : list string :=
  ["C"; "Db"; "D"; "Eb"; "E"; "F"; "F#"; "G"; "Ab"; "A"; "Bb"; "B"]%string.

(** The constants of the constructor. *)
Definition defaultConfig : Config := {|
  pitchClassToName := flatNames;
  noteNames := flatNames;
  gridWidth := 12;
  gridHeight := 8;
  triangleSize := 3%float;
  fifthInterval := 7;
  majorThirdInterval := 4;
  minorThirdInterval := 3
|}.

(** [this.pitchClassToName[pitchClass]]: a negative or too large index
    reads [undefined]. *)
Definition name_at (table : list string) (pitchClass : Z) : option string :=
  if pitchClass <? 0 then None else JS.get table (Z.to_nat pitchClass).

(** [getNoteName]: a missing name is logged and replaced by ['?']. *)
Definition getNoteName (this : Config) (pitchClass : Z) : string :=
  match name_at (pitchClassToName this) pitchClass with
  | None => "?"
  | Some name => name
  end.

(** The pitch class computed in the inner loop of [generateGrid]. *)
Definition pitchClassAt (this : Config) (row col : nat) : Z :=
  Z.rem (Z.rem (Z.of_nat row * majorThirdInterval this
                + Z.of_nat col * fifthInterval this) 12 + 12) 12.

Definition cellAt (this : Config) (row col : nat) : GridCell :=
  let pitchClass := pitchClassAt this row col in
  let noteName := getNoteName this pitchClass in
  {| cell_pitchClass := pitchClass; cell_noteName := noteName |}.

(** [grid[row][col] = cell], through the row array stored in [grid]. *)
Definition set2 {A} (grid : list (list A)) (row col : nat) (cell : A) :
    completion (list (list A)) :=
  r <- defined (JS.get grid row) ;;
  r' <- JS.set r col cell ;;
  JS.set grid row r'.

(** The debug line [console.log('Grid sample:', grid[0][0], grid[0][1],
    grid[1][0])]: it prints, and it throws when row 0 or row 1 is missing
    (a missing column only prints [undefined]). *)
Definition logGridSample {A} (grid : list (list A)) : completion unit :=
  _ <- defined (JS.get grid 0) ;;
  _ <- defined (JS.get grid 1) ;;
  Returns tt.

Definition generateGrid (this : Config) : completion (list (list GridCell)) :=
  grid <- for_ (gridHeight this + 1) (fun row grid =>
            grid <- JS.set grid row [] ;;
            for_ (gridWidth this + 1) (fun col grid =>
              set2 grid row col (cellAt this row col)) grid) [] ;;
  _ <- logGridSample grid ;;
  Returns grid.

(** A triangle vertex: [{ x, z, pitchClass, noteName }]. *)
Module Vertex.
Record t : Type := {
  x : float;
  z : float;
  pitchClass : Z;
  noteName : string
}.
Definition position (v : t) : Point.t := {| Point.x := x v; Point.z := z v |}.
End Vertex.

Module Triangle.
Record t : Type := {
  type : triadType;
  vertices : list Vertex.t;
  center : Point.t;
  chord : list Z;
  chordName : string;
  row : nat;
  col : nat
}.
End Triangle.

Definition triHeightOf (this : Config) : float :=
  (triangleSize this * PrimFloat.sqrt 3 / 2)%float.

(** The helper [getVertexPosition] of [generateTriangles], closed over
    [triWidth] and [triHeight]. *)
Definition getVertexPosition (triWidth triHeight : float) (row col : nat) :
    Point.t :=
  {| Point.x := (num col * triWidth + num row * (triWidth / 2))%float;
     Point.z := (num row * triHeight)%float |}.

(** [this.grid[row][col]], to be read as an object. *)
Definition cellOf (grid : list (list GridCell)) (row col : nat) :
    completion GridCell :=
  r <- defined (JS.get grid row) ;;
  defined (JS.get r col).

Definition mkVertex (p : Point.t) (cell : GridCell) : Vertex.t :=
  {| Vertex.x := Point.x p; Vertex.z := Point.z p;
     Vertex.pitchClass := cell_pitchClass cell;
     Vertex.noteName := cell_noteName cell |}.

Definition centerOf (a b c : Point.t) : Point.t :=
  {| Point.x := ((Point.x a + Point.x b + Point.x c) / 3)%float;
     Point.z := ((Point.z a + Point.z b + Point.z c) / 3)%float |}.

(** The object literal pushed for the upward triangle of a cell. *)
Definition majorTriangle (row col : nat) (v0 v1 v2 : Point.t)
    (cell0 cell1 cell2 : GridCell) : Triangle.t :=
  let majorChord :=
    [60 + cell_pitchClass cell0; 60 + cell_pitchClass cell2;
     60 + cell_pitchClass cell1] in
  {| Triangle.type := major;
     Triangle.vertices := [mkVertex v0 cell0; mkVertex v1 cell1; mkVertex v2 cell2];
     Triangle.center := centerOf v0 v1 v2;
     Triangle.chord := majorChord;
     Triangle.chordName := cell_noteName cell0;
     Triangle.row := row;
     Triangle.col := col |}.

(** The object literal pushed for the downward triangle of a cell. *)
Definition minorTriangle (row col : nat) (v1 v2 v3 : Point.t)
    (cell1 cell2 cell3 : GridCell) : Triangle.t :=
  let minorChord :=
    [60 + cell_pitchClass cell2; 60 + cell_pitchClass cell1;
     60 + cell_pitchClass cell3] in
  {| Triangle.type := minor;
     Triangle.vertices := [mkVertex v2 cell2; mkVertex v1 cell1; mkVertex v3 cell3];
     Triangle.center := centerOf v2 v1 v3;
     Triangle.chord := minorChord;
     Triangle.chordName := (cell_noteName cell2 ++ "m")%string;
     Triangle.row := row;
     Triangle.col := col |}.

(** [generateTriangles]; the debug lines at its end only read
    [triangles[0]] when the list is not empty. *)
Definition generateTriangles (this : Config) (grid : list (list GridCell)) :
    completion (list Triangle.t) :=
  let triWidth := triangleSize this in
  let triHeight := triHeightOf this in
  for_ (gridHeight this) (fun row triangles =>
    for_ (gridWidth this) (fun col triangles =>
      let v0 := getVertexPosition triWidth triHeight row col in
      let v1 := getVertexPosition triWidth triHeight row (col + 1) in
      let v2 := getVertexPosition triWidth triHeight (row + 1) col in
      let v3 := getVertexPosition triWidth triHeight (row + 1) (col + 1) in
      cell0 <- cellOf grid row col ;;
      cell1 <- cellOf grid row (col + 1) ;;
      cell2 <- cellOf grid (row + 1) col ;;
      cell3 <- cellOf grid (row + 1) (col + 1) ;;
      let triangles :=
        triangles ++ [majorTriangle row col v0 v1 v2 cell0 cell1 cell2] in
      let triangles :=
        triangles ++ [minorTriangle row col v1 v2 v3 cell1 cell2 cell3] in
      Returns triangles) triangles) [].

(** The object a [TonnetzSystem] is once its constructor has run. *)
Record TonnetzSystem : Type := {
  config : Config;
  grid : list (list GridCell);
  triangles : list Triangle.t
}.

(** The constructor, for the constants [cfg] it starts from. *)
Definition construct (cfg : Config) : completion TonnetzSystem :=
  grid <- generateGrid cfg ;;
  triangles <- generateTriangles cfg grid ;;
  Returns {| config := cfg; grid := grid; triangles := triangles |}.

Definition newTonnetzSystem : completion TonnetzSystem := construct defaultConfig.

(** [getMajorTriad] and [getMinorTriad] read [this.grid[row][col]], which
    in this file is a cell object, and hand it to [+]. *)
Definition rootOf (this : TonnetzSystem) (row col : nat) : completion value :=
  r <- defined (JS.get (grid this) row) ;;
  Returns (match JS.get r col with
           | Some _ => VObject
           | None => VUndefined
           end).

Definition getMajorTriad (this : TonnetzSystem) (row col : nat) :
    completion (list value) :=
  root <- rootOf this row col ;;
  Returns [JS.add (VNum 60) root;
           JS.add (JS.add (VNum 60) root) (VNum 4);
           JS.add (JS.add (VNum 60) root) (VNum 7)].

Definition getMinorTriad (this : TonnetzSystem) (row col : nat) :
    completion (list value) :=
  root <- rootOf this row col ;;
  Returns [JS.add (VNum 60) root;
           JS.add (JS.add (VNum 60) root) (VNum 3);
           JS.add (JS.add (VNum 60) root) (VNum 7)].

Definition pointInTriangle : float -> float -> Triangle.t -> completion bool :=
  Locator.pointInTriangle Vertex.position Triangle.vertices.

Definition findTriangleAtPosition (this : TonnetzSystem) (x z : float) :
    completion (option Triangle.t) :=
  Locator.findTriangleAtPosition Vertex.position Triangle.vertices
    (triangles this) x z.

(** *** [TonnetzGame.createTonnetzGrid]

    The part of the method that touches the lattice: every triangle of
    [this.tonnetz.triangles] has its center moved in place and its vertex
    array replaced by the moved vertices.  The triangles were built from
    object literals, so no center or vertex is shared between two of them
    and the in-place update of one triangle leaves the others alone. *)

Definition offsetX (this : Config) : float :=
  (- (num (gridWidth this) * triangleSize this) / 2)%float.

Definition offsetZ (this : Config) : float :=
  (- (num (gridHeight this) * triHeightOf this) / 2)%float.

Definition moveVertex (dx dz : float) (v : Vertex.t) : Vertex.t :=
  {| Vertex.x := (Vertex.x v + dx)%float;
     Vertex.z := (Vertex.z v + dz)%float;
     Vertex.pitchClass := Vertex.pitchClass v;
     Vertex.noteName := Vertex.noteName v |}.

Definition moveTriangle (dx dz : float) (triangle : Triangle.t) : Triangle.t :=
  {| Triangle.type := Triangle.type triangle;
     Triangle.vertices := map (moveVertex dx dz) (Triangle.vertices triangle);
     Triangle.center :=
       {| Point.x := (Point.x (Triangle.center triangle) + dx)%float;
          Point.z := (Point.z (Triangle.center triangle) + dz)%float |};
     Triangle.chord := Triangle.chord triangle;
     Triangle.chordName := Triangle.chordName triangle;
     Triangle.row := Triangle.row triangle;
     Triangle.col := Triangle.col triangle |}.

Definition createTonnetzGrid (tonnetz : TonnetzSystem) : TonnetzSystem :=
  let dx := offsetX (config tonnetz) in
  let dz := offsetZ (config tonnetz) in
  {| config := config tonnetz;
     grid := grid tonnetz;
     triangles := map (moveTriangle dx dz) (triangles tonnetz) |}.

(** *** The class [TonnetzGame]

    The state the game keeps besides the scene: the audio system's
    [initialized] flag, the lattice, the player's position and velocity on
    the ground plane, the four key flags and the current triangle.  Meshes,
    camera, lights and oscillators belong to the rendering and audio
    libraries and are left out; what the game hands to them on a change of
    region is recorded in [emitted]. *)

Module Keys.
Record t : Type := { w : bool; a : bool; s : bool; d : bool }.
End Keys.

Inductive key : Type := KeyW | KeyA | KeyS | KeyD.

(** What [checkPlayerPosition] hands over when the region changes: the
    chord for [playChord], the chord name and the joined vertex names. *)
Record Emission : Type := {
  played : list Z;
  shownChord : string;
  shownNotes : string
}.

Record TonnetzGame : Type := {
  audioInitialized : bool;
  tonnetz : TonnetzSystem;
  playerSpeed : float;
  friction : float;
  velocity : Point.t;
  playerPosition : Point.t;
  keys : Keys.t;
  currentTriangle : option Triangle.t;
  emitted : list Emission
}.

(** [triangle !== this.currentTriangle] compares object identity.  A
    triangle object of the list is identified by its cell and type, which
    is what the model compares ([sameTriangle_identity] below: no two
    triangles of the list share them). *)
Definition sameTriangle (t1 t2 : Triangle.t) : bool :=
  (Triangle.row t1 =? Triangle.row t2)%nat
  && (Triangle.col t1 =? Triangle.col t2)%nat
  && triadType_eqb (Triangle.type t1) (Triangle.type t2).

Definition isCurrent (g : TonnetzGame) (triangle : Triangle.t) : bool :=
  match currentTriangle g with
  | Some current => sameTriangle triangle current
  | None => false
  end.

(** [names.join(' - ')]. *)
Fixpoint join (names : list string) : string :=
  match names with
  | [] => ""
  | [name] => name
  | name :: rest => (name ++ " - " ++ join rest)%string
  end.

Definition checkPlayerPosition (g : TonnetzGame) : completion TonnetzGame :=
  found <- findTriangleAtPosition (tonnetz g)
             (Point.x (playerPosition g)) (Point.z (playerPosition g)) ;;
  match found with
  | Some triangle =>
      if negb (isCurrent g triangle) then
        Returns {|
          audioInitialized := audioInitialized g;
          tonnetz := tonnetz g;
          playerSpeed := playerSpeed g;
          friction := friction g;
          velocity := velocity g;
          playerPosition := playerPosition g;
          keys := keys g;
          currentTriangle := Some triangle;
          emitted := emitted g ++ [
            {| played := Triangle.chord triangle;
               shownChord := Triangle.chordName triangle;
               shownNotes := join (map Vertex.noteName (Triangle.vertices triangle)) |} ]
        |}
      else Returns g
  | None => Returns g
  end.

Definition updatePlayer (g : TonnetzGame) : completion TonnetzGame :=
  let vz := Point.z (velocity g) in
  let vx := Point.x (velocity g) in
  let vz := if Keys.w (keys g) then (vz - playerSpeed g)%float else vz in
  let vz := if Keys.s (keys g) then (vz + playerSpeed g)%float else vz in
  let vx := if Keys.a (keys g) then (vx - playerSpeed g)%float else vx in
  let vx := if Keys.d (keys g) then (vx + playerSpeed g)%float else vx in
  let vx := (vx * friction g)%float in
  let vz := (vz * friction g)%float in
  let position :=
    {| Point.x := (Point.x (playerPosition g) + vx)%float;
       Point.z := (Point.z (playerPosition g) + vz)%float |} in
  checkPlayerPosition {|
    audioInitialized := audioInitialized g;
    tonnetz := tonnetz g;
    playerSpeed := playerSpeed g;
    friction := friction g;
    velocity := {| Point.x := vx; Point.z := vz |};
    playerPosition := position;
    keys := keys g;
    currentTriangle := currentTriangle g;
    emitted := emitted g
  |}.

(** One run of [animate]: it reschedules itself, updates the player, then
    moves the camera and renders. *)
Definition animate (g : TonnetzGame) : completion TonnetzGame := updatePlayer g.

Definition setKey (k : key) (down : bool) (keys : Keys.t) : Keys.t :=
  match k with
  | KeyW => {| Keys.w := down; Keys.a := Keys.a keys; Keys.s := Keys.s keys; Keys.d := Keys.d keys |}
  | KeyA => {| Keys.w := Keys.w keys; Keys.a := down; Keys.s := Keys.s keys; Keys.d := Keys.d keys |}
  | KeyS => {| Keys.w := Keys.w keys; Keys.a := Keys.a keys; Keys.s := down; Keys.d := Keys.d keys |}
  | KeyD => {| Keys.w := Keys.w keys; Keys.a := Keys.a keys; Keys.s := Keys.s keys; Keys.d := down |}
  end.

Definition withKeys (keys' : Keys.t) (g : TonnetzGame) : TonnetzGame :=
  {| audioInitialized := audioInitialized g;
     tonnetz := tonnetz g;
     playerSpeed := playerSpeed g;
     friction := friction g;
     velocity := velocity g;
     playerPosition := playerPosition g;
     keys := keys';
     currentTriangle := currentTriangle g;
     emitted := emitted g |}.

(** What the browser delivers after the constructor has returned: a key
    press or release ([None] for a key that is not one of w, a, s, d), a
    window resize, a click on the start button, an animation frame. *)
Inductive event : Type :=
| KeyDown (k : option key)
| KeyUp (k : option key)
| Resize
| StartClick
| Frame.

Definition handle (e : event) (g : TonnetzGame) : completion TonnetzGame :=
  match e with
  | KeyDown (Some k) => Returns (withKeys (setKey k true (keys g)) g)
  | KeyUp (Some k) => Returns (withKeys (setKey k false (keys g)) g)
  | KeyDown None | KeyUp None => Returns g
  | Resize => Returns g
  | StartClick =>
      Returns {|
        audioInitialized := true;
        tonnetz := tonnetz g;
        playerSpeed := playerSpeed g;
        friction := friction g;
        velocity := velocity g;
        playerPosition := playerPosition g;
        keys := keys g;
        currentTriangle := currentTriangle g;
        emitted := emitted g |}
  | Frame => animate g
  end.

(** The handlers run one after the other, each on the state the previous
    one left.  A handler that throws ends the run of the model;
    [run_tonnetz] below shows that none does. *)
Fixpoint run (events : list event) (g : TonnetzGame) : completion TonnetzGame :=
  match events with
  | [] => Returns g
  | e :: rest => g' <- handle e g ;; run rest g'
  end.

#[local] Set Warnings "-inexact-float".

(** The constructor: the fields, [init] (which centers the lattice in
    [createTonnetzGrid] and puts the player at the origin), the event
    listeners, and the first call of [animate].  The decimal constants
    0.00167 and 0.95 stand for the nearest binary64 values, as in
    JavaScript. *)
Definition constructGame (cfg : Config) : completion TonnetzGame :=
  tonnetz <- construct cfg ;;
  animate {|
    audioInitialized := false;
    tonnetz := createTonnetzGrid tonnetz;
    playerSpeed := 0.00167%float;
    friction := 0.95%float;
    velocity := {| Point.x := 0%float; Point.z := 0%float |};
    playerPosition := {| Point.x := 0%float; Point.z := 0%float |};
    keys := {| Keys.w := false; Keys.a := false; Keys.s := false; Keys.d := false |};
    currentTriangle := None;
    emitted := []
  |}.

#[local] Set Warnings "+inexact-float".

Definition newTonnetzGame : completion TonnetzGame := constructGame defaultConfig.

End Game.

(** ** The second copy of the script ([src/unnamed/part_000])

    Grid cells are bare pitch classes, vertices have no [noteName], odd
    rows are shifted by half a triangle, and names come from the sharp
    table [noteNames].  A read of [this.grid[row][col]] past the end of a
    row is [undefined] and flows into [+] without throwing, so pitch
    classes and chord notes are carried as JavaScript values. *)

Module Variant.

Record Config : Type := {
  noteNames : list string;
  gridWidth : nat;
  gridHeight : nat;
  triangleSize : float;
  fifthInterval : Z;
  majorThirdInterval : Z;
  minorThirdInterval : Z
}.

Definition sharpNames : list string :=
  ["C"; "C#"; "D"; "D#"; "E"; "F"; "F#"; "G"; "G#"; "A"; "A#"; "B"]%string.

Definition defaultConfig : Config := {|
  noteNames := sharpNames;
  gridWidth := 12;
  gridHeight := 8;
  triangleSize := 3%float;
  fifthInterval := 7;
  majorThirdInterval := 4;
  minorThirdInterval := 3
|}.

Definition pitchClassAt (this : Config) (row col : nat) : Z :=
  Z.rem (Z.of_nat row * majorThirdInterval this
         + Z.of_nat col * fifthInterval this) 12.

Definition generateGrid (this : Config) : completion (list (list Z)) :=
  for_ (gridHeight this + 1) (fun row grid =>
    grid <- JS.set grid row [] ;;
    for_ (gridWidth this + 1) (fun col grid =>
      Game.set2 grid row col (pitchClassAt this row col)) grid) [].

Module Vertex.
Record t : Type := {
  x : float;
  z : float;
  pitchClass : value
}.
Definition position (v : t) : Point.t := {| Point.x := x v; Point.z := z v |}.
End Vertex.

Module Triangle.
Record t : Type := {
  type : triadType;
  vertices : list Vertex.t;
  center : Point.t;
  chord : list value;
  chordName : value;
  row : nat;
  col : nat
}.
End Triangle.

(** [this.grid[row][col]], read as a number. *)
Definition pcOf (grid : list (list Z)) (row col : nat) : completion value :=
  r <- defined (JS.get grid row) ;;
  Returns (match JS.get r col with
           | Some pc => VNum pc
           | None => VUndefined
           end).

(** [this.noteNames[pc]]. *)
Definition nameOf (table : list string) (pc : value) : value :=
  match pc with
  | VNum n =>
      match Game.name_at table n with
      | Some name => VStr name
      | None => VUndefined
      end
  | _ => VUndefined
  end.

Definition mkVertex (p : Point.t) (pc : value) : Vertex.t :=
  {| Vertex.x := Point.x p; Vertex.z := Point.z p; Vertex.pitchClass := pc |}.

Definition triHeightOf (this : Config) : float :=
  (triangleSize this * PrimFloat.sqrt 3 / 2)%float.

Definition majorTriangle (noteNames : list string) (row col : nat)
    (v0 v1 v2 : Point.t) (pc0 pc1 pc2 : value) : Triangle.t :=
  let majorChord :=
    [JS.add (VNum 60) pc0; JS.add (VNum 60) pc2; JS.add (VNum 60) pc1] in
  {| Triangle.type := major;
     Triangle.vertices := [mkVertex v0 pc0; mkVertex v1 pc1; mkVertex v2 pc2];
     Triangle.center := Game.centerOf v0 v1 v2;
     Triangle.chord := majorChord;
     Triangle.chordName := nameOf noteNames pc0;
     Triangle.row := row;
     Triangle.col := col |}.

Definition minorTriangle (noteNames : list string) (row col : nat)
    (v1 v2 v3 : Point.t) (pc1 pc2 pc3 : value) : Triangle.t :=
  let minorChord :=
    [JS.add (VNum 60) pc2; JS.add (VNum 60) pc1; JS.add (VNum 60) pc3] in
  {| Triangle.type := minor;
     Triangle.vertices := [mkVertex v2 pc2; mkVertex v1 pc1; mkVertex v3 pc3];
     Triangle.center := Game.centerOf v2 v1 v3;
     Triangle.chord := minorChord;
     Triangle.chordName := JS.add (nameOf noteNames pc2) (VStr "m");
     Triangle.row := row;
     Triangle.col := col |}.

(** The four corner positions computed in the loop body for a cell. *)
Definition corners (triWidth triHeight : float) (row col : nat) :
    Point.t * Point.t * Point.t * Point.t :=
  let xOffset := (num (row mod 2) * (triWidth / 2))%float in
  let v0 := {| Point.x := (num col * triWidth + xOffset)%float;
               Point.z := (num row * triHeight)%float |} in
  let v1 := {| Point.x := (num (col + 1) * triWidth + xOffset)%float;
               Point.z := (num row * triHeight)%float |} in
  let v2 := {| Point.x := (num col * triWidth + triWidth / 2 + xOffset)%float;
               Point.z := (num (row + 1) * triHeight)%float |} in
  let v3 := {| Point.x := (num (col + 1) * triWidth + triWidth / 2 + xOffset)%float;
               Point.z := (num (row + 1) * triHeight)%float |} in
  (v0, v1, v2, v3).

Definition generateTriangles (this : Config) (grid : list (list Z)) :
    completion (list Triangle.t) :=
  let triWidth := triangleSize this in
  let triHeight := triHeightOf this in
  for_ (gridHeight this) (fun row triangles =>
    for_ (gridWidth this) (fun col triangles =>
      let '(v0, v1, v2, v3) := corners triWidth triHeight row col in
      pc0 <- pcOf grid row col ;;
      pc1 <- pcOf grid row (col + 1) ;;
      pc2 <- pcOf grid (row + 1) col ;;
      pc3 <- pcOf grid (row + 1) (col + 1) ;;
      let triangles :=
        triangles ++ [majorTriangle (noteNames this) row col v0 v1 v2 pc0 pc1 pc2] in
      let triangles :=
        triangles ++ [minorTriangle (noteNames this) row col v1 v2 v3 pc1 pc2 pc3] in
      Returns triangles) triangles) [].

Record TonnetzSystem : Type := {
  config : Config;
  grid : list (list Z);
  triangles : list Triangle.t
}.

Definition construct (cfg : Config) : completion TonnetzSystem :=
  grid <- generateGrid cfg ;;
  triangles <- generateTriangles cfg grid ;;
  Returns {| config := cfg; grid := grid; triangles := triangles |}.

Definition newTonnetzSystem : completion TonnetzSystem := construct defaultConfig.

Definition getMajorTriad (this : TonnetzSystem) (row col : nat) :
    completion (list value) :=
  root <- pcOf (grid this) row col ;;
  Returns [JS.add (VNum 60) root;
           JS.add (JS.add (VNum 60) root) (VNum 4);
           JS.add (JS.add (VNum 60) root) (VNum 7)].

Definition getMinorTriad (this : TonnetzSystem) (row col : nat) :
    completion (list value) :=
  root <- pcOf (grid this) row col ;;
  Returns [JS.add (VNum 60) root;
           JS.add (JS.add (VNum 60) root) (VNum 3);
           JS.add (JS.add (VNum 60) root) (VNum 7)].

Definition pointInTriangle : float -> float -> Triangle.t -> completion bool :=
  Locator.pointInTriangle Vertex.position Triangle.vertices.

Definition findTriangleAtPosition (this : TonnetzSystem) (x z : float) :
    completion (option Triangle.t) :=
  Locator.findTriangleAtPosition Vertex.position Triangle.vertices
    (triangles this) x z.

Definition offsetX (this : Config) : float :=
  (- (num (gridWidth this) * triangleSize this) / 2)%float.

Definition offsetZ (this : Config) : float :=
  (- (num (gridHeight this) * triHeightOf this) / 2)%float.

Definition moveVertex (dx dz : float) (v : Vertex.t) : Vertex.t :=
  {| Vertex.x := (Vertex.x v + dx)%float;
     Vertex.z := (Vertex.z v + dz)%float;
     Vertex.pitchClass := Vertex.pitchClass v |}.

Definition moveTriangle (dx dz : float) (triangle : Triangle.t) : Triangle.t :=
  {| Triangle.type := Triangle.type triangle;
     Triangle.vertices := map (moveVertex dx dz) (Triangle.vertices triangle);
     Triangle.center :=
       {| Point.x := (Point.x (Triangle.center triangle) + dx)%float;
          Point.z := (Point.z (Triangle.center triangle) + dz)%float |};
     Triangle.chord := Triangle.chord triangle;
     Triangle.chordName := Triangle.chordName triangle;
     Triangle.row := Triangle.row triangle;
     Triangle.col := Triangle.col triangle |}.

Definition createTonnetzGrid (tonnetz : TonnetzSystem) : TonnetzSystem :=
  let dx := offsetX (config tonnetz) in
  let dz := offsetZ (config tonnetz) in
  {| config := config tonnetz;
     grid := grid tonnetz;
     triangles := map (moveTriangle dx dz) (triangles tonnetz) |}.

(** *** The class [TonnetzGame] of the second copy

    The same state and handlers as in [src/game.js]; the vertex names
    shown on a change of region are looked up in [noteNames]. *)

Record Emission : Type := {
  played : list value;
  shownChord : value;
  shownNotes : string
}.

Record TonnetzGame : Type := {
  audioInitialized : bool;
  tonnetz : TonnetzSystem;
  playerSpeed : float;
  friction : float;
  velocity : Point.t;
  playerPosition : Point.t;
  keys : Game.Keys.t;
  currentTriangle : option Triangle.t;
  emitted : list Emission
}.

Definition sameTriangle (t1 t2 : Triangle.t) : bool :=
  (Triangle.row t1 =? Triangle.row t2)%nat
  && (Triangle.col t1 =? Triangle.col t2)%nat
  && triadType_eqb (Triangle.type t1) (Triangle.type t2).

Definition isCurrent (g : TonnetzGame) (triangle : Triangle.t) : bool :=
  match currentTriangle g with
  | Some current => sameTriangle triangle current
  | None => false
  end.

(** An element of the array given to [join]: [undefined] joins as the
    empty string. *)
Definition joined (v : value) : string :=
  match v with
  | VUndefined => ""
  | _ => JS.to_string v
  end.

Definition checkPlayerPosition (g : TonnetzGame) : completion TonnetzGame :=
  found <- findTriangleAtPosition (tonnetz g)
             (Point.x (playerPosition g)) (Point.z (playerPosition g)) ;;
  match found with
  | Some triangle =>
      if negb (isCurrent g triangle) then
        Returns {|
          audioInitialized := audioInitialized g;
          tonnetz := tonnetz g;
          playerSpeed := playerSpeed g;
          friction := friction g;
          velocity := velocity g;
          playerPosition := playerPosition g;
          keys := keys g;
          currentTriangle := Some triangle;
          emitted := emitted g ++ [
            {| played := Triangle.chord triangle;
               shownChord := Triangle.chordName triangle;
               shownNotes :=
                 Game.join
                   (map (fun v => joined (nameOf (noteNames (config (tonnetz g)))
                                            (Vertex.pitchClass v)))
                        (Triangle.vertices triangle)) |} ]
        |}
      else Returns g
  | None => Returns g
  end.

Definition updatePlayer (g : TonnetzGame) : completion TonnetzGame :=
  let vz := Point.z (velocity g) in
  let vx := Point.x (velocity g) in
  let vz := if Game.Keys.w (keys g) then (vz - playerSpeed g)%float else vz in
  let vz := if Game.Keys.s (keys g) then (vz + playerSpeed g)%float else vz in
  let vx := if Game.Keys.a (keys g) then (vx - playerSpeed g)%float else vx in
  let vx := if Game.Keys.d (keys g) then (vx + playerSpeed g)%float else vx in
  let vx := (vx * friction g)%float in
  let vz := (vz * friction g)%float in
  let position :=
    {| Point.x := (Point.x (playerPosition g) + vx)%float;
       Point.z := (Point.z (playerPosition g) + vz)%float |} in
  checkPlayerPosition {|
    audioInitialized := audioInitialized g;
    tonnetz := tonnetz g;
    playerSpeed := playerSpeed g;
    friction := friction g;
    velocity := {| Point.x := vx; Point.z := vz |};
    playerPosition := position;
    keys := keys g;
    currentTriangle := currentTriangle g;
    emitted := emitted g
  |}.

Definition animate (g : TonnetzGame) : completion TonnetzGame := updatePlayer g.

Definition withKeys (keys' : Game.Keys.t) (g : TonnetzGame) : TonnetzGame :=
  {| audioInitialized := audioInitialized g;
     tonnetz := tonnetz g;
     playerSpeed := playerSpeed g;
     friction := friction g;
     velocity := velocity g;
     playerPosition := playerPosition g;
     keys := keys';
     currentTriangle := currentTriangle g;
     emitted := emitted g |}.

Definition handle (e : Game.event) (g : TonnetzGame) : completion TonnetzGame :=
  match e with
  | Game.KeyDown (Some k) => Returns (withKeys (Game.setKey k true (keys g)) g)
  | Game.KeyUp (Some k) => Returns (withKeys (Game.setKey k false (keys g)) g)
  | Game.KeyDown None | Game.KeyUp None => Returns g
  | Game.Resize => Returns g
  | Game.StartClick =>
      Returns {|
        audioInitialized := true;
        tonnetz := tonnetz g;
        playerSpeed := playerSpeed g;
        friction := friction g;
        velocity := velocity g;
        playerPosition := playerPosition g;
        keys := keys g;
        currentTriangle := currentTriangle g;
        emitted := emitted g |}
  | Game.Frame => animate g
  end.

Fixpoint run (events : list Game.event) (g : TonnetzGame) : completion TonnetzGame :=
  match events with
  | [] => Returns g
  | e :: rest => g' <- handle e g ;; run rest g'
  end.

#[local] Set Warnings "-inexact-float".

Definition constructGame (cfg : Config) : completion TonnetzGame :=
  tonnetz <- construct cfg ;;
  animate {|
    audioInitialized := false;
    tonnetz := createTonnetzGrid tonnetz;
    playerSpeed := 0.00167%float;
    friction := 0.95%float;
    velocity := {| Point.x := 0%float; Point.z := 0%float |};
    playerPosition := {| Point.x := 0%float; Point.z := 0%float |};
    keys := {| Game.Keys.w := false; Game.Keys.a := false;
               Game.Keys.s := false; Game.Keys.d := false |};
    currentTriangle := None;
    emitted := []
  |}.

#[local] Set Warnings "+inexact-float".

Definition newTonnetzGame : completion TonnetzGame := constructGame defaultConfig.

End Variant.

(** ** Closed forms of the loops

    What the nested loops of [generateGrid] and [generateTriangles] build,
    written as list comprehensions; the properties below first show that
    the loops return exactly these lists. *)

Module Lattice.
Import Game.

Definition gridOf (this : Config) : list (list GridCell) :=
  map (fun row => map (cellAt this row) (seq 0 (gridWidth this + 1)))
      (seq 0 (gridHeight this + 1)).

Definition positionOf (this : Config) (row col : nat) : Point.t :=
  getVertexPosition (triangleSize this) (triHeightOf this) row col.

Definition majorAt (this : Config) (row col : nat) : Triangle.t :=
  majorTriangle row col
    (positionOf this row col) (positionOf this row (col + 1))
    (positionOf this (row + 1) col)
    (cellAt this row col) (cellAt this row (col + 1)) (cellAt this (row + 1) col).

Definition minorAt (this : Config) (row col : nat) : Triangle.t :=
  minorTriangle row col
    (positionOf this row (col + 1)) (positionOf this (row + 1) col)
    (positionOf this (row + 1) (col + 1))
    (cellAt this row (col + 1)) (cellAt this (row + 1) col)
    (cellAt this (row + 1) (col + 1)).

Definition trianglesOf (this : Config) : list Triangle.t :=
  flat_map (fun row =>
    flat_map (fun col => [majorAt this row col; minorAt this row col])
             (seq 0 (gridWidth this)))
    (seq 0 (gridHeight this)).

(** The key by which a triangle is identified: its cell and type. *)
Definition keyOf (t : Triangle.t) : nat * nat * triadType :=
  (Triangle.row t, Triangle.col t, Triangle.type t).

(** The grid positions a triangle is built on, as the comments of
    [generateTriangles] list them: the upward triangle of cell (row, col)
    uses (row, col), (row, col+1), (row+1, col); the downward one uses
    (row+1, col), (row, col+1), (row+1, col+1). *)
Definition gridVertices (t : Triangle.t) : list (nat * nat) :=
  let row := Triangle.row t in
  let col := Triangle.col t in
  match Triangle.type t with
  | major => [(row, col); (row, col + 1); (row + 1, col)]%nat
  | minor => [(row + 1, col); (row, col + 1); (row + 1, col + 1)]%nat
  end.

(** The system as the constructor leaves it, and as [createTonnetzGrid]
    leaves it. *)
Definition built (this : Config) : TonnetzSystem :=
  {| config := this; grid := gridOf this; triangles := trianglesOf this |}.

Definition centered (this : Config) : TonnetzSystem := createTonnetzGrid (built this).

(** Every triangle of the list has [vertices[0]], [vertices[1]] and
    [vertices[2]], and no more. *)
Definition threeVertices (ts : list Triangle.t) : Prop :=
  Forall (fun t => List.length (Triangle.vertices t) = 3%nat) ts.

(** Does looking up the center of [t] find a triangle with the key of [t]? *)
Definition centroidLocated (sys : TonnetzSystem) (t : Triangle.t) : bool :=
  match findTriangleAtPosition sys
          (Point.x (Triangle.center t)) (Point.z (Triangle.center t)) with
  | Returns (Some t') => sameTriangle t' t
  | _ => false
  end.

(** [final] is [built] moved by [(dx, dz)]: vertex by vertex and center. *)
Definition movedBy (dx dz : float) (built final : Triangle.t) : Prop :=
  Forall2 (fun v v' =>
             Vertex.x v' = (Vertex.x v + dx)%float
             /\ Vertex.z v' = (Vertex.z v + dz)%float)
          (Triangle.vertices built) (Triangle.vertices final)
  /\ Point.x (Triangle.center final) = (Point.x (Triangle.center built) + dx)%float
  /\ Point.z (Triangle.center final) = (Point.z (Triangle.center built) + dz)%float.


(** The triangles produced for the cell [(row, col)]. *)
Definition inCell (row col : nat) (t : Triangle.t) : bool :=
  (Triangle.row t =? row)%nat && (Triangle.col t =? col)%nat.

(** The keys in row-major cell order, major before minor. *)
Definition keysInOrder (width height : nat) : list (nat * nat * triadType) :=
  flat_map (fun row =>
    flat_map (fun col => [(row, col, major); (row, col, minor)]) (seq 0 width))
    (seq 0 height).

(** A triangle with three vertices and a chord of three notes in the
    octave of middle C. *)
Definition wellFormed (t : Triangle.t) : Prop :=
  List.length (Triangle.vertices t) = 3%nat
  /\ List.length (Triangle.chord t) = 3%nat
  /\ Forall (fun note => 60 <= note <= 71) (Triangle.chord t).

End Lattice.

Module VariantLattice.
Import Variant.

Definition gridOf (this : Config) : list (list Z) :=
  map (fun row => map (pitchClassAt this row) (seq 0 (gridWidth this + 1)))
      (seq 0 (gridHeight this + 1)).

Definition majorAt (this : Config) (row col : nat) : Triangle.t :=
  let '(v0, v1, v2, _) := corners (triangleSize this) (triHeightOf this) row col in
  majorTriangle (noteNames this) row col v0 v1 v2
    (VNum (pitchClassAt this row col)) (VNum (pitchClassAt this row (col + 1)))
    (VNum (pitchClassAt this (row + 1) col)).

Definition minorAt (this : Config) (row col : nat) : Triangle.t :=
  let '(_, v1, v2, v3) := corners (triangleSize this) (triHeightOf this) row col in
  minorTriangle (noteNames this) row col v1 v2 v3
    (VNum (pitchClassAt this row (col + 1))) (VNum (pitchClassAt this (row + 1) col))
    (VNum (pitchClassAt this (row + 1) (col + 1))).

Definition trianglesOf (this : Config) : list Triangle.t :=
  flat_map (fun row =>
    flat_map (fun col => [majorAt this row col; minorAt this row col])
             (seq 0 (gridWidth this)))
    (seq 0 (gridHeight this)).

Definition keyOf (t : Triangle.t) : nat * nat * triadType :=
  (Triangle.row t, Triangle.col t, Triangle.type t).

Definition built (this : Config) : TonnetzSystem :=
  {| config := this; grid := gridOf this; triangles := trianglesOf this |}.

Definition centered (this : Config) : TonnetzSystem := createTonnetzGrid (built this).

Definition centroidLocated (sys : TonnetzSystem) (t : Triangle.t) : bool :=
  match findTriangleAtPosition sys
          (Point.x (Triangle.center t)) (Point.z (Triangle.center t)) with
  | Returns (Some t') => sameTriangle t' t
  | _ => false
  end.

(** Three vertices and a chord of three integer notes in the octave of
    middle C. *)
Definition wellFormed (t : Triangle.t) : Prop :=
  List.length (Triangle.vertices t) = 3%nat
  /\ exists n1 n2 n3,
       Triangle.chord t = [VNum n1; VNum n2; VNum n3]
       /\ 60 <= n1 <= 71 /\ 60 <= n2 <= 71 /\ 60 <= n3 <= 71.

Definition movedBy (dx dz : float) (built final : Triangle.t) : Prop :=
  Forall2 (fun v v' =>
             Vertex.x v' = (Vertex.x v + dx)%float
             /\ Vertex.z v' = (Vertex.z v + dz)%float)
          (Triangle.vertices built) (Triangle.vertices final)
  /\ Point.x (Triangle.center final) = (Point.x (Triangle.center built) + dx)%float
  /\ Point.z (Triangle.center final) = (Point.z (Triangle.center built) + dz)%float.

End VariantLattice.

(** ** The other methods of the two files *)

(** *** [TonnetzSystem.getChordName]

    [midiNotes[0] % 12], then [this.noteNames[rootNote]], then the name
    alone for ['major'] and the name followed by ['m'] otherwise.  It has
    the same text in both files; the table is [noteNames], which
    [src/game.js] keeps beside [pitchClassToName]. *)

Module Chords.

(** [midiNotes[0] % 12] on an array of integers: reading an empty array
    gives [undefined], whose remainder is [NaN]. *)
Definition rootNote (midiNotes : list Z) : value :=
  match JS.get midiNotes 0 with
  | Some note => VNum (Z.rem note 12)
  | None => VNaN
  end.

Definition getChordName (noteNames : list string) (midiNotes : list Z)
    (type : triadType) : value :=
  let rootNote := rootNote midiNotes in
  let noteName := Variant.nameOf noteNames rootNote in
  match type with
  | major => noteName
  | minor => JS.add noteName (VStr "m")
  end.

(** The notes of a chord of the second copy, when they are integers. *)
Fixpoint integers (notes : list value) : option (list Z) :=
  match notes with
  | [] => Some []
  | VNum n :: rest => option_map (cons n) (integers rest)
  | _ :: _ => None
  end.

End Chords.

(** *** The class [AudioSystem]

    The audio context, its clock and the oscillator and gain nodes belong
    to the browser.  The model keeps what the class itself holds: the
    [initialized] flag, the gain set on the master node, and the list
    [activeOscillators], each entry with what the script asked of its
    nodes.  [Math.pow] is the engine's; it and the clock reading
    [audioContext.currentTime] are given from outside. *)

Module Audio.

(** A call on the [gain] parameter of a gain node. *)
Inductive gainCall : Type :=
| SetValueAtTime (value time : float)
| LinearRampToValueAtTime (value time : float).

(** An entry [{ oscillator, gainNode }]. *)
Record Voice : Type := {
  waveform : string;
  frequency : float;
  gainCalls : list gainCall;
  startTime : float;
  stopTime : float
}.

Record AudioSystem : Type := {
  masterGain : option float;
  activeOscillators : list Voice;
  initialized : bool
}.

(** The constructor. *)
Definition newAudioSystem : AudioSystem :=
  {| masterGain := None; activeOscillators := []; initialized := false |}.

#[local] Set Warnings "-inexact-float".

Definition init (this : AudioSystem) : AudioSystem :=
  if initialized this then this
  else {| masterGain := Some 0.3%float;
          activeOscillators := activeOscillators this;
          initialized := true |}.

(** The number a MIDI note denotes. *)
Definition numZ (n : Z) : float :=
  if n <? 0 then (- PrimFloat.of_uint63 (Uint63.of_Z (- n)))%float
  else PrimFloat.of_uint63 (Uint63.of_Z n).

Section WithEngine.

Variable pow : float -> float -> float.

Definition midiToFrequency (midiNote : Z) : float :=
  (440 * pow 2 ((numZ midiNote - 69) / 12))%float.

(** [stopAll]: every held gain is cancelled and set to 0, then the list
    is emptied. *)
Definition stopAll (this : AudioSystem) : AudioSystem :=
  {| masterGain := masterGain this;
     activeOscillators := [];
     initialized := initialized this |}.

(** The body of the [forEach] of [playChord] for one note. *)
Definition voiceOf (now duration : float) (note : Z) : Voice :=
  {| waveform := "triangle";
     frequency := midiToFrequency note;
     gainCalls :=
       [SetValueAtTime 0 now;
        LinearRampToValueAtTime 0.4 (now + 0.05);
        LinearRampToValueAtTime 0.25 (now + 0.15);
        SetValueAtTime 0.25 (now + duration - 0.2);
        LinearRampToValueAtTime 0 (now + duration)]%float;
     startTime := now;
     stopTime := (now + duration)%float |}.

(** [playChord(midiNotes, duration)], with the clock reading [now]. *)
Definition playChord (midiNotes : list Z) (duration now : float)
    (this : AudioSystem) : AudioSystem :=
  if negb (initialized this) then this
  else
    let this := stopAll this in
    fold_left (fun (this : AudioSystem) note =>
                 {| masterGain := masterGain this;
                    activeOscillators :=
                      activeOscillators this ++ [voiceOf now duration note];
                    initialized := initialized this |})
              midiNotes this.

(** The default [duration = 0.8]. *)
Definition defaultDuration : float := 0.8%float.

(** What a caller can do with the object. *)
Inductive call : Type :=
| Init
| PlayChord (midiNotes : list Z) (duration now : float)
| StopAll.

Definition perform (c : call) (this : AudioSystem) : AudioSystem :=
  match c with
  | Init => init this
  | PlayChord midiNotes duration now => playChord midiNotes duration now this
  | StopAll => stopAll this
  end.

Definition performAll (calls : list call) (this : AudioSystem) : AudioSystem :=
  fold_left (fun this c => perform c this) calls this.

End WithEngine.

#[local] Set Warnings "+inexact-float".

(** The notes of a call, none for a call that plays nothing. *)
Definition notesOf (c : call) : list Z :=
  match c with
  | PlayChord midiNotes _ _ => midiNotes
  | _ => []
  end.

Definition isInit (c : call) : bool :=
  match c with
  | Init => true
  | _ => false
  end.

End Audio.

(** *** [TonnetzGame.highlightTriangle] and [TonnetzGame.addNoteLabels] *)

Module Scene.

(** What [highlightTriangle] writes on the material of a mesh, and the
    hue the mesh was created with. *)
Record Mesh : Type := {
  hue : float;
  emissive : Z;
  emissiveIntensity : float;
  opacity : float
}.

#[local] Set Warnings "-inexact-float".

Definition lit (type : triadType) (mesh : Mesh) : Mesh :=
  {| hue := hue mesh;
     emissive := match type with major => 0x4ecdc4 | minor => 0xa855f7 end;
     emissiveIntensity := 0.5%float;
     opacity := 1%float |}.

Definition unlit (mesh : Mesh) : Mesh :=
  {| hue := hue mesh;
     emissive := 0x000000;
     emissiveIntensity := 0%float;
     opacity := 0.7%float |}.

(** The mesh [createTonnetzGrid] pushes for a triangle. *)
Definition meshOf (type : triadType) : Mesh :=
  {| hue := match type with major => 0.55%float | minor => 0.75%float end;
     emissive := 0x000000;
     emissiveIntensity := 1%float;
     opacity := 0.7%float |}.

#[local] Set Warnings "+inexact-float".

(** [this.triangleMeshes.forEach((mesh, index) => ...)], from [index]
    on.  [same t] is [t === activeTriangle]; a mesh without a triangle
    compares [undefined] with the active triangle and stays unlit. *)
Fixpoint highlightFrom {T} (type : T -> triadType) (same : T -> bool)
    (triangles : list T) (index : nat) (meshes : list Mesh) : list Mesh :=
  match meshes with
  | [] => []
  | mesh :: rest =>
      let triangle := JS.get triangles index in
      let mesh' :=
        match triangle with
        | Some t => if same t then lit (type t) mesh else unlit mesh
        | None => unlit mesh
        end in
      mesh' :: highlightFrom type same triangles (S index) rest
  end.

Definition highlightTriangle (triangles : list Game.Triangle.t)
    (activeTriangle : Game.Triangle.t) (triangleMeshes : list Mesh) : list Mesh :=
  highlightFrom Game.Triangle.type
    (fun t => Game.sameTriangle t activeTriangle) triangles 0 triangleMeshes.

(** [x.toFixed(2)].  The digits are those of the integer nearest to
    100 * |x|, the larger one on a tie; a negative [x] keeps its sign even
    when the digits are all zero, and [-0] prints as [0.00].  From 10^21
    on JavaScript switches to exponent notation, which is not modelled:
    the result is [None] there. *)
Definition twoDigits (n : Z) : string :=
  (JS.Z_to_string (n / 100) ++ "."
   ++ JS.Z_to_string (n mod 100 / 10) ++ JS.Z_to_string (n mod 10))%string.

Definition toFixed2 (x : float) : option string :=
  match Prim2SF x with
  | S754_nan => Some "NaN"%string
  | S754_infinity false => Some "Infinity"%string
  | S754_infinity true => Some "-Infinity"%string
  | S754_zero _ => Some "0.00"%string
  | S754_finite negative m e =>
      let m := Z.pos m in
      let tooLarge :=
        if 0 <=? e then 10 ^ 21 <=? m * 2 ^ e
        else 10 ^ 21 * 2 ^ (- e) <=? m in
      if tooLarge then None
      else
        let n :=
          if 0 <=? e then 100 * m * 2 ^ e
          else (2 * (100 * m) + 2 ^ (- e)) / (2 * 2 ^ (- e)) in
        Some ((if negative then "-" else "") ++ twoDigits n)%string
  end.

(** The key [`${v.x.toFixed(2)},${v.z.toFixed(2)}`]. *)
Definition keyAt (x z : float) : option string :=
  match toFixed2 x, toFixed2 z with
  | Some sx, Some sz => Some (sx ++ "," ++ sz)%string
  | _, _ => None
  end.

(** The key of a vertex, and the test that a vertex prints to a given
    key. *)
Definition keyOf {V} (position : V -> Point.t) (v : V) : option string :=
  keyAt (Point.x (position v)) (Point.z (position v)).

Definition keyed {V} (position : V -> Point.t) (key : string) (v : V) : bool :=
  match keyOf position v with
  | Some k => String.eqb k key
  | None => false
  end.

(** A [Map] with string keys, in insertion order. *)
Definition has {A} (map : list (string * A)) (key : string) : bool :=
  existsb (fun entry => String.eqb (fst entry) key) map.

Definition lookup {A} (map : list (string * A)) (key : string) : option A :=
  option_map snd (find (fun entry => String.eqb (fst entry) key) map).

(** An entry [{ x, z, noteName }] of the vertex map of [src/game.js]. *)
Record Label : Type := {
  labelX : float;
  labelZ : float;
  labelName : string
}.

(** The first loop of [addNoteLabels]: the first vertex seen under a key
    is kept.  [None] when a coordinate is outside what [toFixed2] models. *)
Definition collect {V L} (position : V -> Point.t) (entry : V -> L)
    (vertices : list V) (map : list (string * L)) : option (list (string * L)) :=
  fold_left (fun acc v =>
               match acc with
               | None => None
               | Some map =>
                   match keyAt (Point.x (position v)) (Point.z (position v)) with
                   | None => None
                   | Some key =>
                       if has map key then Some map
                       else Some (map ++ [(key, entry v)])
                   end
               end)
            vertices (Some map).

Definition labelOf (v : Game.Vertex.t) : Label :=
  {| labelX := Game.Vertex.x v; labelZ := Game.Vertex.z v;
     labelName := Game.Vertex.noteName v |}.

(** [addNoteLabels] of [src/game.js]: the vertex map; one sprite is made
    for each entry, with the text [noteName], at [(x, 1.5, z)]. *)
Definition addNoteLabels (tonnetz : Game.TonnetzSystem) :
    option (list (string * Label)) :=
  collect Game.Vertex.position labelOf
    (flat_map Game.Triangle.vertices (Game.triangles tonnetz)) [].

(** [addNoteLabels] of the second copy: the entries keep the pitch class,
    and the sprite text is [noteNames[pitchClass]]. *)
Definition variantAddNoteLabels (tonnetz : Variant.TonnetzSystem) :
    option (list (string * Variant.Vertex.t)) :=
  collect Variant.Vertex.position (fun v => v)
    (flat_map Variant.Triangle.vertices (Variant.triangles tonnetz)) [].

(** Is the label under the key of [v] the label of [v]'s own note? *)
Definition labelled (map : list (string * Label)) (v : Game.Vertex.t) : bool :=
  match keyAt (Game.Vertex.x v) (Game.Vertex.z v) with
  | Some key =>
      match lookup map key with
      | Some label =>
          String.eqb (labelName label) (Game.Vertex.noteName v)
          && PrimFloat.Leibniz.eqb (labelX label) (Game.Vertex.x v)
          && PrimFloat.Leibniz.eqb (labelZ label) (Game.Vertex.z v)
      | None => false
      end
  | None => false
  end.

End Scene.

(** *** What [checkPlayerPosition] hands over for a triangle *)

Module Region.

Definition emissionOf (triangle : Game.Triangle.t) : Game.Emission :=
  {| Game.played := Game.Triangle.chord triangle;
     Game.shownChord := Game.Triangle.chordName triangle;
     Game.shownNotes :=
       Game.join (map Game.Vertex.noteName (Game.Triangle.vertices triangle)) |}.

(** The display agrees with the current triangle: nothing was handed over
    while there is no current triangle; otherwise the current triangle is
    one of the lattice and the last thing handed over is its chord. *)
Definition displayed (g : Game.TonnetzGame) : Prop :=
  match Game.currentTriangle g with
  | None => Game.emitted g = []
  | Some t =>
      In t (Game.triangles (Game.tonnetz g))
      /\ exists earlier, Game.emitted g = earlier ++ [emissionOf t]
  end.

Definition origin : Point.t := {| Point.x := 0; Point.z := 0 |}.

Definition noKeys : Game.Keys.t :=
  {| Game.Keys.w := false; Game.Keys.a := false;
     Game.Keys.s := false; Game.Keys.d := false |}.

(** The player is where the scan last looked: the triangle found at its
    position, if any, is the current one. *)
Definition settled (g : Game.TonnetzGame) : Prop :=
  forall t,
    Game.findTriangleAtPosition (Game.tonnetz g)
      (Point.x (Game.playerPosition g)) (Point.z (Game.playerPosition g))
    = Returns (Some t) ->
    Game.isCurrent g t = true.

#[local] Set Warnings "-inexact-float".

(** At rest at the origin, with no key held and the constructor's speed
    and friction. *)
Definition resting (g : Game.TonnetzGame) : Prop :=
  Game.velocity g = origin
  /\ Game.playerPosition g = origin
  /\ Game.keys g = noKeys
  /\ Game.playerSpeed g = 0.00167%float
  /\ Game.friction g = 0.95%float.

#[local] Set Warnings "+inexact-float".

(** An event that presses one of the four movement keys. *)
Definition pressesKey (e : Game.event) : bool :=
  match e with
  | Game.KeyDown (Some _) => true
  | _ => false
  end.

End Region.

(** ** Binary64 numbers by magnitude

    What the rounded operations do to the order of magnitude of their
    operands is followed through the binade of a number: the power of two
    just above its magnitude. *)

Module Binary64.

(** The number of binary digits of a mantissa. *)
Definition digits (m : positive) : Z := Zpos (digits2_pos m).

(** The binade of a finite non-zero value m * 2^e: the k with
    2^(k-1) <= m * 2^e < 2^k. *)
Definition binade (m : positive) (e : Z) : Z := digits m + e.

(** Zero, or finite with magnitude below 2^hi. *)
Definition small (hi : Z) (x : spec_float) : bool :=
  match x with
  | S754_zero _ => true
  | S754_finite _ m e => binade m e <=? hi
  | _ => false
  end.


(** Zero or finite. *)
Definition finite (x : spec_float) : bool :=
  match x with
  | S754_zero _ | S754_finite _ _ _ => true
  | _ => false
  end.



(** The same on binary64 numbers. *)
Definition Small (hi : Z) (x : float) : bool := small hi (Prim2SF x).




End Binary64.

(** *** Positions far outside the lattice

    The centered lattice of the game spans x in [-18, 30] and z in
    [-10.4, 10.4]: every vertex coordinate is below 32 in magnitude.  A
    position is far outside when both coordinates are finite and one of
    them is at least 8192 in magnitude. *)

Module Outside.

Import Binary64.











End Outside.

(** * Properties *)

(** ** Loops and array writes *)

Section Loops.

Context {St : Type}.

Lemma for_range_ext (body body' : nat -> St -> completion St) :
  forall count from s,
    (forall i s', (from <= i < from + count)%nat -> body i s' = body' i s') ->
    for_range from count body s = for_range from count body' s.
Proof.
  induction count as [|count IH]; intros from s Hext; simpl.
  - reflexivity.
  - rewrite (Hext from s) by lia.
    destruct (body' from s) as [s1|]; simpl; [|reflexivity].
    apply IH. intros i s' Hi. apply Hext. lia.
Qed.

End Loops.

(** A loop whose body pushes [f i] onto an array builds the concatenation
    of the [f i] in index order. *)
Lemma for_range_push {A} (f : nat -> list A) :
  forall count from acc,
    for_range from count (fun i acc => Returns (acc ++ f i)) acc
    = Returns (acc ++ flat_map f (seq from count)).
Proof.
  induction count as [|count IH]; intros from acc; simpl.
  - now rewrite app_nil_r.
  - rewrite IH. now rewrite app_assoc.
Qed.

Lemma set_at_length {A} (a : list A) (x : A) :
  JS.set a (List.length a) x = Returns (a ++ [x]).
Proof.
  unfold JS.set. rewrite Nat.ltb_irrefl, Nat.eqb_refl. reflexivity.
Qed.

Section ArrayWrites.

Context {A : Type}.

Lemma set_last (g : list (list A)) (r r' : list A) :
  JS.set (g ++ [r]) (List.length g) r' = Returns (g ++ [r']).
Proof.
  unfold JS.set.
  replace (List.length g <? List.length (g ++ [r]))%nat with true.
  - rewrite firstn_app, Nat.sub_diag, firstn_all, firstn_O, app_nil_r.
    rewrite skipn_all2 by (rewrite length_app; simpl; lia).
    reflexivity.
  - symmetry. apply Nat.ltb_lt. rewrite length_app. simpl. lia.
Qed.

Lemma get_last (g : list (list A)) (r : list A) :
  JS.get (g ++ [r]) (List.length g) = Some r.
Proof.
  unfold JS.get. rewrite nth_error_app2 by lia.
  now rewrite Nat.sub_diag.
Qed.

Lemma set2_last (g : list (list A)) (r : list A) (x : A) :
  Game.set2 (g ++ [r]) (List.length g) (List.length r) x
  = Returns (g ++ [r ++ [x]]).
Proof.
  unfold Game.set2. rewrite get_last. simpl.
  rewrite set_at_length. simpl. apply set_last.
Qed.

(** The inner loop of [generateGrid] fills the last row from left to
    right. *)
Lemma fill_row (f : nat -> A) (g : list (list A)) :
  forall count from r,
    List.length r = from ->
    for_range from count
      (fun col grid => Game.set2 grid (List.length g) col (f col)) (g ++ [r])
    = Returns (g ++ [r ++ map f (seq from count)]).
Proof.
  induction count as [|count IH]; intros from r Hlen; cbn [for_range seq map].
  - now rewrite app_nil_r.
  - subst from. rewrite set2_last. cbn [JS.bind].
    rewrite IH by (rewrite length_app; simpl; lia).
    now rewrite <- app_assoc.
Qed.

(** The two nested loops of [generateGrid] build the grid row by row. *)
Lemma fill_grid (f : nat -> nat -> A) (width : nat) :
  forall count from g,
    List.length g = from ->
    for_range from count
      (fun row grid =>
         grid <- JS.set grid row [] ;;
         for_ width (fun col grid => Game.set2 grid row col (f row col)) grid) g
    = Returns (g ++ map (fun row => map (f row) (seq 0 width)) (seq from count)).
Proof.
  induction count as [|count IH]; intros from g Hlen; cbn [for_range seq map].
  - now rewrite app_nil_r.
  - subst from. rewrite set_at_length. cbn [JS.bind].
    unfold for_ at 1.
    rewrite (@fill_row (f (List.length g)) g width 0%nat [] eq_refl).
    cbn [JS.bind app].
    rewrite IH by (rewrite length_app; simpl; lia).
    now rewrite <- app_assoc.
Qed.

End ArrayWrites.

(** ** The grid of [src/game.js] *)

Section GameGrid.

Import Game.
Variable this : Config.

Lemma generateGrid_loops :
  for_ (gridHeight this + 1) (fun row grid =>
    grid <- JS.set grid row [] ;;
    for_ (gridWidth this + 1) (fun col grid =>
      set2 grid row col (cellAt this row col)) grid) []
  = Returns (Lattice.gridOf this).
Proof.
  unfold for_ at 1.
  rewrite (@fill_grid _ (cellAt this) (gridWidth this + 1) (gridHeight this + 1)
             0%nat [] eq_refl).
  reflexivity.
Qed.

Lemma gridOf_row (row : nat) :
  (row <= gridHeight this)%nat ->
  JS.get (Lattice.gridOf this) row
  = Some (map (cellAt this row) (seq 0 (gridWidth this + 1))).
Proof.
  intros Hrow. unfold JS.get, Lattice.gridOf.
  rewrite nth_error_map, nth_error_seq.
  replace (row <? gridHeight this + 1)%nat with true
    by (symmetry; apply Nat.ltb_lt; lia).
  reflexivity.
Qed.

(** [generateGrid] returns the grid as soon as the grid has a second row
    for the debug line to read. *)
Lemma generateGrid_returns :
  (1 <= gridHeight this)%nat ->
  generateGrid this = Returns (Lattice.gridOf this).
Proof.
  intros Hheight. unfold generateGrid. rewrite generateGrid_loops.
  cbn [JS.bind]. unfold logGridSample.
  rewrite !gridOf_row by lia. reflexivity.
Qed.

(** X7. With [gridHeight = 0] the grid has the single row 0, and the debug
    line of [generateGrid] throws on [grid[1][0]]. *)
Theorem generateGrid_throws_without_second_row :
  gridHeight this = 0%nat -> generateGrid this = Throws.
Proof.
  intros Hheight. unfold generateGrid. rewrite generateGrid_loops.
  cbn [JS.bind]. unfold logGridSample.
  rewrite gridOf_row by lia. cbn [defined JS.bind].
  unfold JS.get, Lattice.gridOf. rewrite Hheight. reflexivity.
Qed.

Lemma gridOf_cell (row col : nat) :
  (row <= gridHeight this)%nat -> (col <= gridWidth this)%nat ->
  cellOf (Lattice.gridOf this) row col = Returns (cellAt this row col).
Proof.
  intros Hrow Hcol. unfold cellOf.
  rewrite gridOf_row by assumption. cbn [defined JS.bind].
  unfold JS.get. rewrite nth_error_map, nth_error_seq.
  replace (col <? gridWidth this + 1)%nat with true
    by (symmetry; apply Nat.ltb_lt; lia).
  reflexivity.
Qed.

Lemma generateTriangles_returns :
  generateTriangles this (Lattice.gridOf this) = Returns (Lattice.trianglesOf this).
Proof.
  unfold generateTriangles, for_.
  rewrite for_range_ext with
    (body' := fun row acc =>
       Returns (acc ++ flat_map
                  (fun col => [Lattice.majorAt this row col; Lattice.minorAt this row col])
                  (seq 0 (gridWidth this)))).
  - rewrite for_range_push. reflexivity.
  - intros row acc Hrow.
    rewrite for_range_ext with
      (body' := fun col acc =>
         Returns (acc ++ [Lattice.majorAt this row col; Lattice.minorAt this row col])).
    + apply for_range_push.
    + intros col acc' Hcol.
      rewrite !gridOf_cell by lia. cbn [JS.bind].
      rewrite <- app_assoc. reflexivity.
Qed.

Lemma construct_returns :
  (1 <= gridHeight this)%nat ->
  construct this = Returns (Lattice.built this).
Proof.
  intros Hheight.
  unfold construct. rewrite generateGrid_returns by assumption. cbn [JS.bind].
  rewrite generateTriangles_returns. reflexivity.
Qed.

End GameGrid.

Lemma generateGrid_throws_without_second_row_witness :
  Game.generateGrid
    {| Game.pitchClassToName := Game.flatNames;
       Game.noteNames := Game.flatNames;
       Game.gridWidth := 12;
       Game.gridHeight := 0;
       Game.triangleSize := 3%float;
       Game.fifthInterval := 7;
       Game.majorThirdInterval := 4;
       Game.minorThirdInterval := 3 |}
  = Throws.
Proof.
  apply generateGrid_throws_without_second_row. reflexivity.
Defined.

(** ** Lists built by nested comprehensions *)

Section Comprehensions.

Context {A B : Type}.

Lemma filter_flat_map_nil (p : B -> bool) (f : A -> list B) (l : list A) :
  (forall i, In i l -> filter p (f i) = []) ->
  filter p (flat_map f l) = [].
Proof.
  induction l as [|a l IH]; intros Hnil; simpl.
  - reflexivity.
  - rewrite filter_app, Hnil by (left; reflexivity).
    apply IH. intros i Hi. apply Hnil. right. assumption.
Qed.

Lemma Forall_flat_map_intro (P : B -> Prop) (f : A -> list B) (l : list A) :
  (forall i, In i l -> Forall P (f i)) -> Forall P (flat_map f l).
Proof.
  induction l as [|a l IH]; intros Hall; simpl.
  - constructor.
  - apply Forall_app. split.
    + apply Hall. left. reflexivity.
    + apply IH. intros i Hi. apply Hall. right. assumption.
Qed.

End Comprehensions.

Lemma filter_flat_map_seq {B} (p : B -> bool) (f : nat -> list B) (k : nat) :
  forall count from,
    (from <= k < from + count)%nat ->
    (forall i, i <> k -> filter p (f i) = []) ->
    filter p (flat_map f (seq from count)) = filter p (f k).
Proof.
  induction count as [|count IH]; intros from Hk Hother; simpl.
  - lia.
  - rewrite filter_app.
    destruct (Nat.eq_dec from k) as [->|Hne].
    + rewrite filter_flat_map_nil.
      * now rewrite app_nil_r.
      * intros i Hi. apply in_seq in Hi. apply Hother. lia.
    + rewrite (Hother from Hne). simpl. apply IH; [lia|assumption].
Qed.

Lemma length_flat_map_const {A B} (f : A -> list B) (n : nat) (l : list A) :
  (forall i, List.length (f i) = n) ->
  List.length (flat_map f l) = (List.length l * n)%nat.
Proof.
  intros Hlen. induction l as [|a l IH]; simpl.
  - reflexivity.
  - rewrite length_app, Hlen, IH. lia.
Qed.

Lemma NoDup_flat_map_seq {B} (f : nat -> list B) :
  (forall i, NoDup (f i)) ->
  (forall i j x, In x (f i) -> In x (f j) -> i = j) ->
  forall count from, NoDup (flat_map f (seq from count)).
Proof.
  intros Heach Hapart.
  induction count as [|count IH]; intros from; simpl.
  - constructor.
  - apply NoDup_app; [apply Heach|apply IH|].
    intros x Hhere Hlater.
    apply in_flat_map in Hlater as (j & Hj & Hx). apply in_seq in Hj.
    specialize (Hapart from j x Hhere Hx). lia.
Qed.

Lemma NoDup_map_injective {A B} (f : A -> B) (l : list A) (a b : A) :
  NoDup (map f l) -> In a l -> In b l -> f a = f b -> a = b.
Proof.
  induction l as [|c l IH]; simpl; intros Hnodup Ha Hb Heq.
  - contradiction.
  - inversion Hnodup as [|? ? Hnotin Hrest]; subst.
    destruct Ha as [->|Ha], Hb as [->|Hb].
    + reflexivity.
    + exfalso. apply Hnotin. rewrite Heq. now apply in_map.
    + exfalso. apply Hnotin. rewrite <- Heq. now apply in_map.
    + now apply IH.
Qed.

(** No key occurs twice in the row-major enumeration. *)
Lemma keysInOrder_NoDup (width height : nat) :
  NoDup (Lattice.keysInOrder width height).
Proof.
  unfold Lattice.keysInOrder. apply NoDup_flat_map_seq.
  - intros row. apply NoDup_flat_map_seq.
    + intros col. repeat constructor; simpl; intuition discriminate.
    + intros i j x Hi Hj. simpl in Hi, Hj.
      destruct Hi as [<-|[<-|[]]], Hj as [Hj|[Hj|[]]]; congruence.
  - intros i j x Hi Hj.
    apply in_flat_map in Hi as (ci & _ & Hi).
    apply in_flat_map in Hj as (cj & _ & Hj).
    simpl in Hi, Hj.
    destruct Hi as [<-|[<-|[]]], Hj as [Hj|[Hj|[]]]; congruence.
Qed.

(** ** Pitch classes *)

Lemma normalized_range (n : Z) : 0 <= Z.rem (Z.rem n 12 + 12) 12 < 12.
Proof.
  assert (Hrem : -12 < Z.rem n 12 < 12).
  { pose proof (Z.rem_bound_abs n 12 ltac:(lia)) as Habs. lia. }
  apply Z.rem_bound_pos; lia.
Qed.

Lemma normalized_nonneg (n : Z) :
  0 <= n -> Z.rem (Z.rem n 12 + 12) 12 = ((n mod 12) + 12) mod 12.
Proof.
  intros Hn.
  rewrite (Z.rem_mod_nonneg n 12) by lia.
  pose proof (Z.mod_pos_bound n 12 ltac:(lia)).
  rewrite Z.rem_mod_nonneg by lia. reflexivity.
Qed.

Lemma pitchClassAt_range (this : Game.Config) (row col : nat) :
  0 <= Game.pitchClassAt this row col < 12.
Proof. apply normalized_range. Qed.

(** X6. Pitch classes repeat every 3 rows (3 * 4 = 12) and every 12
    columns (12 * 7 = 84). *)
Theorem pitchClass_periodic (this : Game.Config) (row col : nat) :
  Game.majorThirdInterval this = 4 ->
  Game.fifthInterval this = 7 ->
  Game.pitchClassAt this (row + 3) col = Game.pitchClassAt this row col
  /\ Game.pitchClassAt this row (col + 12) = Game.pitchClassAt this row col.
Proof.
  intros Hthird Hfifth. unfold Game.pitchClassAt. rewrite Hthird, Hfifth.
  rewrite !normalized_nonneg by lia.
  split; f_equal; f_equal.
  - replace (Z.of_nat (row + 3) * 4 + Z.of_nat col * 7)
      with (Z.of_nat row * 4 + Z.of_nat col * 7 + 1 * 12) by lia.
    apply Z.mod_add. lia.
  - replace (Z.of_nat row * 4 + Z.of_nat (col + 12) * 7)
      with (Z.of_nat row * 4 + Z.of_nat col * 7 + 7 * 12) by lia.
    apply Z.mod_add. lia.
Qed.

Lemma pitchClass_periodic_witness :
  Game.pitchClassAt Game.defaultConfig (2 + 3) 5
  = Game.pitchClassAt Game.defaultConfig 2 5
  /\ Game.pitchClassAt Game.defaultConfig 2 (5 + 12)
     = Game.pitchClassAt Game.defaultConfig 2 5.
Proof.
  apply (@pitchClass_periodic Game.defaultConfig 2 5); reflexivity.
Defined.

(** C2. For every row in [0, gridHeight] and every col in [0, gridWidth],
    [generateGrid] returns a grid whose cell at (row, col) exists and
    carries the pitch class ((row*4 + col*7) mod 12 + 12) mod 12, a value
    that is non-negative and below 12.  The intervals 4 and 7 are the
    constants the constructor sets; the grid has a second row (the
    constructor sets gridHeight = 8), which the debug line reads. *)
Theorem generateGrid_pitchClass (this : Game.Config) (row col : nat) :
  Game.majorThirdInterval this = 4 ->
  Game.fifthInterval this = 7 ->
  (1 <= Game.gridHeight this)%nat ->
  (row <= Game.gridHeight this)%nat ->
  (col <= Game.gridWidth this)%nat ->
  exists grid cell,
    Game.generateGrid this = Returns grid
    /\ Game.cellOf grid row col = Returns cell
    /\ Game.cell_pitchClass cell
       = ((Z.of_nat row * 4 + Z.of_nat col * 7) mod 12 + 12) mod 12
    /\ 0 <= Game.cell_pitchClass cell < 12.
Proof.
  intros Hthird Hfifth Hheight Hrow Hcol.
  exists (Lattice.gridOf this), (Game.cellAt this row col).
  split; [apply generateGrid_returns; assumption|].
  split; [apply gridOf_cell; assumption|].
  cbn [Game.cellAt Game.cell_pitchClass]. split.
  - unfold Game.pitchClassAt. rewrite Hthird, Hfifth.
    apply normalized_nonneg. lia.
  - apply pitchClassAt_range.
Qed.

Lemma generateGrid_pitchClass_witness :
  exists grid cell,
    Game.generateGrid Game.defaultConfig = Returns grid
    /\ Game.cellOf grid 8 12 = Returns cell
    /\ Game.cell_pitchClass cell
       = ((Z.of_nat 8 * 4 + Z.of_nat 12 * 7) mod 12 + 12) mod 12
    /\ 0 <= Game.cell_pitchClass cell < 12.
Proof.
  apply (@generateGrid_pitchClass Game.defaultConfig 8 12);
    [reflexivity | reflexivity | simpl; lia | simpl; lia | simpl; lia].
Defined.

(** ** The tessellation of [src/game.js] *)

Lemma map_flat_map_comm {A B C} (g : B -> C) (f : A -> list B) (l : list A) :
  map g (flat_map f l) = flat_map (fun i => map g (f i)) l.
Proof.
  induction l as [|a l IH]; simpl.
  - reflexivity.
  - now rewrite map_app, IH.
Qed.

Section GameTessellation.

Import Game.
Variable this : Config.

Lemma trianglesOf_keys :
  map Lattice.keyOf (Lattice.trianglesOf this)
  = Lattice.keysInOrder (gridWidth this) (gridHeight this).
Proof.
  unfold Lattice.trianglesOf, Lattice.keysInOrder.
  rewrite map_flat_map_comm. apply flat_map_ext. intros row.
  rewrite map_flat_map_comm. apply flat_map_ext. intros col.
  reflexivity.
Qed.

Lemma trianglesOf_length :
  List.length (Lattice.trianglesOf this)
  = (2 * gridWidth this * gridHeight this)%nat.
Proof.
  unfold Lattice.trianglesOf.
  rewrite length_flat_map_const with (n := (gridWidth this * 2)%nat).
  - rewrite length_seq. lia.
  - intros row. rewrite length_flat_map_const with (n := 2%nat).
    + now rewrite length_seq.
    + reflexivity.
Qed.

Lemma trianglesOf_Forall (P : Triangle.t -> Prop) :
  (forall row col,
      (row < gridHeight this)%nat -> (col < gridWidth this)%nat ->
      P (Lattice.majorAt this row col) /\ P (Lattice.minorAt this row col)) ->
  Forall P (Lattice.trianglesOf this).
Proof.
  intros HP. unfold Lattice.trianglesOf.
  apply Forall_flat_map_intro. intros row Hrow. apply in_seq in Hrow.
  apply Forall_flat_map_intro. intros col Hcol. apply in_seq in Hcol.
  destruct (HP row col) as [Hmajor Hminor]; [lia|lia|].
  repeat constructor; assumption.
Qed.

Lemma trianglesOf_wellFormed : Forall Lattice.wellFormed (Lattice.trianglesOf this).
Proof.
  apply trianglesOf_Forall. intros row col _ _.
  unfold Lattice.wellFormed, Lattice.majorAt, Lattice.minorAt.
  cbn [majorTriangle minorTriangle Triangle.vertices Triangle.chord
       List.length cellAt cell_pitchClass].
  pose proof (pitchClassAt_range this row col).
  pose proof (pitchClassAt_range this row (col + 1)).
  pose proof (pitchClassAt_range this (row + 1) col).
  pose proof (pitchClassAt_range this (row + 1) (col + 1)).
  repeat split; repeat constructor; lia.
Qed.

Lemma trianglesOf_inCell (row col : nat) :
  (row < gridHeight this)%nat -> (col < gridWidth this)%nat ->
  filter (Lattice.inCell row col) (Lattice.trianglesOf this)
  = [Lattice.majorAt this row col; Lattice.minorAt this row col].
Proof.
  intros Hrow Hcol. unfold Lattice.trianglesOf.
  rewrite filter_flat_map_seq with (k := row); [|lia|].
  - rewrite filter_flat_map_seq with (k := col); [|lia|].
    + unfold Lattice.inCell. simpl. now rewrite !Nat.eqb_refl.
    + intros col' Hne. unfold Lattice.inCell. simpl.
      apply Nat.eqb_neq in Hne. rewrite Hne, andb_false_r. reflexivity.
  - intros row' Hne. apply filter_flat_map_nil. intros col' _.
    unfold Lattice.inCell. simpl.
    apply Nat.eqb_neq in Hne. rewrite Hne. reflexivity.
Qed.

End GameTessellation.

(** C9. The constructor returns (the grid has a second row), and every
    triangle of the list it generated has exactly three vertices and a
    chord of exactly three notes, each between 60 and 71. *)
Theorem triangles_wellFormed (this : Game.Config) :
  (1 <= Game.gridHeight this)%nat ->
  exists sys,
    Game.construct this = Returns sys
    /\ Forall (fun t =>
         List.length (Game.Triangle.vertices t) = 3%nat
         /\ List.length (Game.Triangle.chord t) = 3%nat
         /\ Forall (fun note => 60 <= note <= 71) (Game.Triangle.chord t))
       (Game.triangles sys).
Proof.
  intros Hheight.
  eexists. split; [apply construct_returns; assumption|].
  cbn [Game.triangles Lattice.built]. exact (trianglesOf_wellFormed this).
Qed.

Lemma triangles_wellFormed_witness :
  exists sys,
    Game.newTonnetzSystem = Returns sys
    /\ Forall (fun t =>
         List.length (Game.Triangle.vertices t) = 3%nat
         /\ List.length (Game.Triangle.chord t) = 3%nat
         /\ Forall (fun note => 60 <= note <= 71) (Game.Triangle.chord t))
       (Game.triangles sys).
Proof.
  apply (@triangles_wellFormed Game.defaultConfig). simpl. lia.
Defined.

(** C10. The generated list holds 2 * gridWidth * gridHeight triangles,
    192 for the constants of the constructor; its keys (row, col, type)
    run through the cells in row-major order with the major triangle of a
    cell right before its minor triangle; and every triangle has
    row < gridHeight and col < gridWidth. *)
Theorem triangles_enumeration (this : Game.Config) :
  (1 <= Game.gridHeight this)%nat ->
  (exists sys,
     Game.construct this = Returns sys
     /\ List.length (Game.triangles sys)
        = (2 * Game.gridWidth this * Game.gridHeight this)%nat
     /\ map Lattice.keyOf (Game.triangles sys)
        = Lattice.keysInOrder (Game.gridWidth this) (Game.gridHeight this)
     /\ Forall (fun t => (Game.Triangle.row t < Game.gridHeight this)%nat
                         /\ (Game.Triangle.col t < Game.gridWidth this)%nat)
          (Game.triangles sys))
  /\ (exists sys,
        Game.newTonnetzSystem = Returns sys
        /\ List.length (Game.triangles sys) = 192%nat).
Proof.
  intros Hheight. split.
  - eexists. split; [apply construct_returns; assumption|].
    cbn [Game.triangles Lattice.built].
    split; [apply trianglesOf_length|].
    split; [apply trianglesOf_keys|].
    apply trianglesOf_Forall. intros row col Hrow Hcol.
    split; split; assumption.
  - eexists. split; [apply construct_returns; simpl; lia|].
    cbn [Game.triangles Lattice.built].
    rewrite trianglesOf_length. reflexivity.
Qed.

Lemma triangles_enumeration_witness :
  exists sys,
    Game.newTonnetzSystem = Returns sys
    /\ List.length (Game.triangles sys) = 192%nat
    /\ map Lattice.keyOf (Game.triangles sys) = Lattice.keysInOrder 12 8
    /\ Forall (fun t => (Game.Triangle.row t < 8)%nat
                        /\ (Game.Triangle.col t < 12)%nat)
         (Game.triangles sys).
Proof.
  destruct (@triangles_enumeration Game.defaultConfig) as [(sys & H) _];
    [simpl; lia|].
  exists sys. exact H.
Defined.

(** C1. For every cell with row < gridHeight and col < gridWidth the
    generated list holds exactly two triangles of that cell, in this
    order: the major triangle with vertices [c00, c01, c10], chord
    [60 + pc(row,col), 60 + pc(row+1,col), 60 + pc(row,col+1)] and the name
    of pc(row,col); and the minor triangle with vertices [c10, c01, c11],
    chord [60 + pc(row+1,col), 60 + pc(row,col+1), 60 + pc(row+1,col+1)]
    and the name of pc(row+1,col) followed by "m".  The center of each is
    the sum of its three vertex positions divided by 3. *)
Theorem tessellation_cell (this : Game.Config) (row col : nat) :
  (row < Game.gridHeight this)%nat ->
  (col < Game.gridWidth this)%nat ->
  let pc := Game.pitchClassAt this in
  let corner := fun r c =>
    {| Game.Vertex.x := Point.x (Lattice.positionOf this r c);
       Game.Vertex.z := Point.z (Lattice.positionOf this r c);
       Game.Vertex.pitchClass := pc r c;
       Game.Vertex.noteName := Game.getNoteName this (pc r c) |} in
  let c00 := corner row col in
  let c01 := corner row (col + 1)%nat in
  let c10 := corner (row + 1)%nat col in
  let c11 := corner (row + 1)%nat (col + 1)%nat in
  let mean := fun a b c =>
    {| Point.x := ((Game.Vertex.x a + Game.Vertex.x b + Game.Vertex.x c) / 3)%float;
       Point.z := ((Game.Vertex.z a + Game.Vertex.z b + Game.Vertex.z c) / 3)%float |} in
  exists sys,
    Game.construct this = Returns sys
    /\ filter (Lattice.inCell row col) (Game.triangles sys)
       = [ {| Game.Triangle.type := major;
              Game.Triangle.vertices := [c00; c01; c10];
              Game.Triangle.center := mean c00 c01 c10;
              Game.Triangle.chord :=
                [60 + pc row col; 60 + pc (row + 1)%nat col; 60 + pc row (col + 1)%nat];
              Game.Triangle.chordName := Game.getNoteName this (pc row col);
              Game.Triangle.row := row;
              Game.Triangle.col := col |};
           {| Game.Triangle.type := minor;
              Game.Triangle.vertices := [c10; c01; c11];
              Game.Triangle.center := mean c10 c01 c11;
              Game.Triangle.chord :=
                [60 + pc (row + 1)%nat col; 60 + pc row (col + 1)%nat;
                 60 + pc (row + 1)%nat (col + 1)%nat];
              Game.Triangle.chordName :=
                (Game.getNoteName this (pc (row + 1)%nat col) ++ "m")%string;
              Game.Triangle.row := row;
              Game.Triangle.col := col |} ].
Proof.
  intros Hrow Hcol pc corner c00 c01 c10 c11 mean.
  eexists. split; [apply construct_returns; lia|].
  cbn [Game.triangles Lattice.built].
  rewrite trianglesOf_inCell by assumption.
  reflexivity.
Qed.

(** The cell (0, 0) of the game's lattice: C major [60, 64, 67] and
    E minor [64, 67, 71]. *)
Lemma tessellation_cell_witness :
  exists sys,
    Game.newTonnetzSystem = Returns sys
    /\ map (fun t => (Game.Triangle.type t, Game.Triangle.chord t,
                      Game.Triangle.chordName t))
           (filter (Lattice.inCell 0 0) (Game.triangles sys))
       = [(major, [60; 64; 67], "C"%string); (minor, [64; 67; 71], "Em"%string)].
Proof.
  destruct (@tessellation_cell Game.defaultConfig 0 0) as (sys & Hsys & Hcell);
    [simpl; lia | simpl; lia |].
  exists sys. split; [exact Hsys|].
  rewrite Hcell. reflexivity.
Defined.

(** X1. Every vertex of every generated triangle of [src/game.js] sits where
    the cumulative-shift rule puts its grid position: at
    x = col * triangleSize + row * (triangleSize / 2) and
    z = row * (triangleSize * sqrt 3 / 2).  The position depends on the
    grid position alone, so two triangles that share a grid vertex agree
    on its coordinates. *)
Theorem vertices_on_cumulative_lattice (this : Game.Config) :
  (1 <= Game.gridHeight this)%nat ->
  let place := fun rc : nat * nat =>
    {| Point.x := (num (snd rc) * Game.triangleSize this
                   + num (fst rc) * (Game.triangleSize this / 2))%float;
       Point.z := (num (fst rc)
                   * (Game.triangleSize this * PrimFloat.sqrt 3 / 2))%float |} in
  exists sys,
    Game.construct this = Returns sys
    /\ Forall (fun t =>
         map Game.Vertex.position (Game.Triangle.vertices t)
         = map place (Lattice.gridVertices t))
       (Game.triangles sys).
Proof.
  intros Hheight place.
  eexists. split; [apply construct_returns; assumption|].
  cbn [Game.triangles Lattice.built].
  apply trianglesOf_Forall. intros row col _ _. split; reflexivity.
Qed.

(** The lattice of the game as shipped: triangleSize is 3. *)
Lemma vertices_on_cumulative_lattice_witness :
  exists sys,
    Game.newTonnetzSystem = Returns sys
    /\ Forall (fun t =>
         map Game.Vertex.position (Game.Triangle.vertices t)
         = map (fun rc : nat * nat =>
                  {| Point.x := (num (snd rc) * 3 + num (fst rc) * (3 / 2))%float;
                     Point.z := (num (fst rc) * (3 * PrimFloat.sqrt 3 / 2))%float |})
               (Lattice.gridVertices t))
       (Game.triangles sys).
Proof.
  apply (@vertices_on_cumulative_lattice Game.defaultConfig). simpl. lia.
Defined.

(** ** Point location *)

Section PointLocation.

Variables V T : Type.
Variable position : V -> Point.t.
Variable vertices : T -> list V.

Local Abbreviation pointInTriangle := (Locator.pointInTriangle position vertices).
Local Abbreviation findTriangleAtPosition :=
  (Locator.findTriangleAtPosition position vertices).

Lemma pointInTriangle_returns (px pz : float) (t : T) (v0 v1 v2 : V) (more : list V) :
  vertices t = v0 :: v1 :: v2 :: more ->
  let p := {| Point.x := px; Point.z := pz |} in
  pointInTriangle px pz t
  = Returns (negb (Locator.hasNeg
                     (Locator.sign p (position v0) (position v1))
                     (Locator.sign p (position v1) (position v2))
                     (Locator.sign p (position v2) (position v0))
                   && Locator.hasPos
                     (Locator.sign p (position v0) (position v1))
                     (Locator.sign p (position v1) (position v2))
                     (Locator.sign p (position v2) (position v0)))).
Proof.
  intros Hv p. unfold Locator.pointInTriangle. rewrite Hv. reflexivity.
Qed.

Lemma hasNeg_iff (d1 d2 d3 : float) :
  Locator.hasNeg d1 d2 d3 = true
  <-> (d1 <? 0)%float = true \/ (d2 <? 0)%float = true \/ (d3 <? 0)%float = true.
Proof.
  unfold Locator.hasNeg. rewrite !orb_true_iff. tauto.
Qed.

Lemma hasPos_iff (d1 d2 d3 : float) :
  Locator.hasPos d1 d2 d3 = true
  <-> (0 <? d1)%float = true \/ (0 <? d2)%float = true \/ (0 <? d3)%float = true.
Proof.
  unfold Locator.hasPos. rewrite !orb_true_iff. tauto.
Qed.

(** A zero is neither strictly negative nor strictly positive. *)
Lemma zero_not_signed (d : float) :
  (d =? 0)%float = true -> (d <? 0)%float = false /\ (0 <? d)%float = false.
Proof.
  rewrite eqb_spec, !ltb_spec.
  unfold SFeqb, SFltb.
  replace (Prim2SF 0) with (S754_zero false) by reflexivity.
  destruct (Prim2SF d) as [s| s | | s m e]; simpl; try discriminate; auto.
  - destruct s; discriminate.
  - destruct s; discriminate.
Qed.

(** The scan stops at the first triangle the test accepts. *)
Lemma find_first_match (x z : float) :
  forall triangles t,
    findTriangleAtPosition triangles x z = Returns (Some t)
    <-> exists before after,
          triangles = before ++ t :: after
          /\ Forall (fun t' => pointInTriangle x z t' = Returns false) before
          /\ pointInTriangle x z t = Returns true.
Proof.
  induction triangles as [|t0 rest IH]; intros t; simpl.
  - split.
    + discriminate.
    + intros (before & after & Heq & _). destruct before; discriminate.
  - destruct (pointInTriangle x z t0) as [[|]|] eqn:Hin; simpl.
    + split.
      * intros [= <-]. exists [], rest. auto.
      * intros (before & after & Heq & Hbefore & Ht).
        destruct before as [|b before]; simpl in Heq.
        -- now injection Heq as -> _.
        -- injection Heq as -> _. inversion Hbefore; congruence.
    + rewrite IH. split.
      * intros (before & after & -> & Hbefore & Ht).
        exists (t0 :: before), after. auto.
      * intros (before & after & Heq & Hbefore & Ht).
        destruct before as [|b before]; simpl in Heq.
        -- injection Heq as -> _. congruence.
        -- injection Heq as -> ->. inversion Hbefore. eauto.
    + split.
      * discriminate.
      * intros (before & after & Heq & Hbefore & Ht).
        destruct before as [|b before]; simpl in Heq.
        -- injection Heq as -> _. congruence.
        -- injection Heq as -> _. inversion Hbefore; congruence.
Qed.


(** On triangles with three vertices the scan always returns. *)
Lemma find_returns (x z : float) :
  forall triangles,
    Forall (fun t => List.length (vertices t) = 3%nat) triangles ->
    exists found, findTriangleAtPosition triangles x z = Returns found.
Proof.
  induction triangles as [|t0 rest IH]; intros Hall; simpl.
  - eauto.
  - inversion Hall as [|? ? H3 Hrest]; subst.
    destruct (vertices t0) as [|v0 [|v1 [|v2 [|]]]] eqn:Hv; try discriminate.
    rewrite (@pointInTriangle_returns x z _ _ _ _ _ Hv). simpl.
    match goal with |- context [if ?b then _ else _] => destruct b end; eauto.
Qed.

End PointLocation.

(** C4, as amended.  On a triangle with vertices v0, v1, v2 the test
    returns, and it returns true exactly when the signed areas
    d1 = sign(P, v0, v1), d2 = sign(P, v1, v2), d3 = sign(P, v2, v0) do not
    hold both a strictly negative and a strictly positive value.  A zero
    d_i counts as neither: a point with d_i = 0 is inside exactly when
    the two other signed areas are not of strictly opposite signs. *)
Theorem pointInTriangle_sign_test (V T : Type) (position : V -> Point.t)
    (vertices : T -> list V) (px pz : float) (t : T) (v0 v1 v2 : V) :
  vertices t = [v0; v1; v2] ->
  let p := {| Point.x := px; Point.z := pz |} in
  let d1 := Locator.sign p (position v0) (position v1) in
  let d2 := Locator.sign p (position v1) (position v2) in
  let d3 := Locator.sign p (position v2) (position v0) in
  let negative := fun d => (d <? 0)%float = true in
  let positive := fun d => (0 <? d)%float = true in
  let mixed := fun a b => (negative a \/ negative b) /\ (positive a \/ positive b) in
  exists inside,
    Locator.pointInTriangle position vertices px pz t = Returns inside
    /\ (inside = true
        <-> ~ ((negative d1 \/ negative d2 \/ negative d3)
               /\ (positive d1 \/ positive d2 \/ positive d3)))
    /\ ((d1 =? 0)%float = true -> (inside = true <-> ~ mixed d2 d3))
    /\ ((d2 =? 0)%float = true -> (inside = true <-> ~ mixed d1 d3))
    /\ ((d3 =? 0)%float = true -> (inside = true <-> ~ mixed d1 d2)).
Proof.
  intros Hv p d1 d2 d3 negative positive mixed.
  eexists. split; [apply (@pointInTriangle_returns _ _ position vertices px pz _ _ _ _ _ Hv)|].
  fold p d1 d2 d3.
  assert (Hiff : negb (Locator.hasNeg d1 d2 d3 && Locator.hasPos d1 d2 d3) = true
                 <-> ~ ((negative d1 \/ negative d2 \/ negative d3)
                        /\ (positive d1 \/ positive d2 \/ positive d3))).
  { rewrite negb_true_iff, <- not_true_iff_false, andb_true_iff.
    rewrite hasNeg_iff, hasPos_iff. reflexivity. }
  split; [exact Hiff|].
  unfold mixed, negative, positive in *.
  split; [|split]; intros Hzero; apply zero_not_signed in Hzero as [Hn Hp];
    rewrite Hiff; intuition congruence.
Qed.

Lemma pointInTriangle_sign_test_witness :
  exists inside,
    Game.pointInTriangle 1.5 1 (Lattice.majorAt Game.defaultConfig 0 0)
    = Returns inside
    /\ inside = true.
Proof.
  destruct (@pointInTriangle_sign_test _ _ Game.Vertex.position
              Game.Triangle.vertices 1.5%float 1%float
              (Lattice.majorAt Game.defaultConfig 0 0) _ _ _ eq_refl)
    as (inside & Hret & _).
  exists inside. split; [exact Hret|].
  vm_compute in Hret. now injection Hret as <-.
Defined.

(** C4, the counterexample.  The first generated triangle has vertices
    (0, 0), (3, 0) and (1.5, 2.598...).  The point (6, 0) lies on the line
    through the first two, beyond the second: d1 = 0, yet the test rejects
    the point. *)
Lemma zero_area_point_rejected :
  exists sys t v0 v1 v2,
    Game.newTonnetzSystem = Returns sys
    /\ JS.get (Game.triangles sys) 0 = Some t
    /\ Game.Triangle.vertices t = [v0; v1; v2]
    /\ (Locator.sign {| Point.x := 6; Point.z := 0 |}
          (Game.Vertex.position v0) (Game.Vertex.position v1) =? 0)%float = true
    /\ Game.pointInTriangle 6 0 t = Returns false.
Proof.
  do 5 eexists.
  split; [apply construct_returns; simpl; lia|].
  split; [vm_compute; reflexivity|].
  split; [reflexivity|].
  split; vm_compute; reflexivity.
Qed.

(** ** The session of [src/game.js] *)

Section Session.

Import Game.

Lemma centered_threeVertices (this : Config) :
  Lattice.threeVertices (triangles (Lattice.centered this)).
Proof.
  unfold Lattice.threeVertices, Lattice.centered, createTonnetzGrid.
  cbn [triangles Lattice.built]. apply Forall_map.
  eapply Forall_impl; [|apply trianglesOf_wellFormed].
  intros t (Hv & _). cbn [moveTriangle Triangle.vertices].
  now rewrite length_map.
Qed.

Lemma checkPlayerPosition_tonnetz (g : TonnetzGame) :
  Lattice.threeVertices (triangles (tonnetz g)) ->
  exists g', checkPlayerPosition g = Returns g' /\ tonnetz g' = tonnetz g.
Proof.
  intros Hthree. unfold checkPlayerPosition, findTriangleAtPosition.
  destruct (find_returns Vertex.position Triangle.vertices
              (Point.x (playerPosition g)) (Point.z (playerPosition g)) Hthree)
    as (found & ->).
  cbn [JS.bind].
  destruct found as [triangle|]; [|eauto].
  destruct (negb (isCurrent g triangle)); eauto.
Qed.

Lemma handle_tonnetz (e : event) (g : TonnetzGame) :
  Lattice.threeVertices (triangles (tonnetz g)) ->
  exists g', handle e g = Returns g' /\ tonnetz g' = tonnetz g.
Proof.
  intros Hthree. destruct e as [[k|]|[k|]| | |]; cbn [handle]; eauto.
  unfold animate, updatePlayer.
  match goal with
  | |- exists g', checkPlayerPosition ?g0 = _ /\ _ =>
      destruct (@checkPlayerPosition_tonnetz g0 Hthree) as (g' & Hret & Hsame)
  end.
  exists g'. split; [exact Hret|exact Hsame].
Qed.

(** No event delivered after the constructor changes the lattice. *)
Lemma run_tonnetz (events : list event) :
  forall g,
    Lattice.threeVertices (triangles (tonnetz g)) ->
    exists g', run events g = Returns g' /\ tonnetz g' = tonnetz g.
Proof.
  induction events as [|e events IH]; intros g Hthree; cbn [run].
  - eauto.
  - destruct (@handle_tonnetz e g Hthree) as (g1 & -> & H1). cbn [JS.bind].
    destruct (IH g1) as (g2 & Hrun & H2).
    + now rewrite H1.
    + exists g2. split; [assumption|congruence].
Qed.

(** The constructor returns a game whose lattice was centered once. *)
Lemma constructGame_returns (this : Config) :
  (1 <= gridHeight this)%nat ->
  exists g, constructGame this = Returns g /\ tonnetz g = Lattice.centered this.
Proof.
  intros Hheight.
  unfold constructGame. rewrite construct_returns by assumption. cbn [JS.bind].
  match goal with
  | |- exists g, animate ?g0 = _ /\ _ =>
      destruct (@handle_tonnetz Frame g0 (centered_threeVertices this))
        as (g & Hret & Hsame)
  end.
  exists g. split; [exact Hret|exact Hsame].
Qed.

Lemma moveTriangle_movedBy (dx dz : float) (t : Triangle.t) :
  Lattice.movedBy dx dz t (moveTriangle dx dz t).
Proof.
  unfold Lattice.movedBy. cbn [moveTriangle Triangle.vertices Triangle.center Point.x Point.z].
  split; [|split; reflexivity].
  induction (Triangle.vertices t) as [|v vs IH]; simpl; constructor; auto.
Qed.

(** Comparing two triangles of the centered list by cell and type is
    comparing the objects: no two triangles of the list share a key. *)
Lemma sameTriangle_identity (this : Config) (t1 t2 : Triangle.t) :
  In t1 (triangles (Lattice.centered this)) ->
  In t2 (triangles (Lattice.centered this)) ->
  sameTriangle t1 t2 = true -> t1 = t2.
Proof.
  intros H1 H2 Hsame.
  apply (NoDup_map_injective Lattice.keyOf (triangles (Lattice.centered this)));
    try assumption.
  - unfold Lattice.centered, createTonnetzGrid. cbn [triangles Lattice.built].
    rewrite map_map.
    rewrite (map_ext _ Lattice.keyOf) by reflexivity.
    rewrite trianglesOf_keys. apply keysInOrder_NoDup.
  - unfold sameTriangle in Hsame. unfold Lattice.keyOf.
    apply andb_true_iff in Hsame as [Hsame Htype].
    apply andb_true_iff in Hsame as [Hrow Hcol].
    apply Nat.eqb_eq in Hrow, Hcol. rewrite Hrow, Hcol.
    destruct (Triangle.type t1), (Triangle.type t2);
      try discriminate; reflexivity.
Qed.

End Session.

(** ** Rounding and the binade of a result *)

Section Rounding.

Import Binary64.




















Lemma small_weaken (hi hi' : Z) (x : spec_float) :
  hi <= hi' -> small hi x = true -> small hi' x = true.
Proof.
  intros Hhi. destruct x as [| | |s' m e]; try discriminate; [reflexivity|].
  unfold small. intros H. apply Z.leb_le in H. apply Z.leb_le. lia.
Qed.




Lemma small_finite (hi : Z) (x : spec_float) :
  small hi x = true -> finite x = true.
Proof. destruct x; try discriminate; reflexivity. Qed.













Implicit Types x y : float.








Lemma Small_weaken x (hi hi' : Z) :
  hi <= hi' -> Small hi x = true -> Small hi' x = true.
Proof. unfold Small. apply small_weaken. Qed.










End Rounding.

(** ** Far positions *)

Section FarPositions.

Import Binary64 Outside.





Variables V T : Type.
Variable position : V -> Point.t.
Variable vertices : T -> list V.



End FarPositions.



Lemma sameTriangle_key (t1 t2 : Game.Triangle.t) :
  Game.sameTriangle t1 t2 = true -> Lattice.keyOf t1 = Lattice.keyOf t2.
Proof.
  unfold Game.sameTriangle, Lattice.keyOf. intros Hsame.
  apply andb_true_iff in Hsame as [Hsame Htype].
  apply andb_true_iff in Hsame as [Hrow Hcol].
  apply Nat.eqb_eq in Hrow, Hcol. rewrite Hrow, Hcol.
  destruct (Game.Triangle.type t1), (Game.Triangle.type t2);
    try discriminate; reflexivity.
Qed.

Lemma centroidLocated_sound (sys : Game.TonnetzSystem) (t : Game.Triangle.t) :
  Lattice.centroidLocated sys t = true ->
  exists t',
    Game.findTriangleAtPosition sys
      (Point.x (Game.Triangle.center t)) (Point.z (Game.Triangle.center t))
    = Returns (Some t')
    /\ Lattice.keyOf t' = Lattice.keyOf t.
Proof.
  unfold Lattice.centroidLocated.
  destruct (Game.findTriangleAtPosition sys _ _) as [[t'|]|]; try discriminate.
  intros Hsame. exists t'. split; [reflexivity|].
  now apply sameTriangle_key.
Qed.

(** C6. For every triangle of the centered list, looking up its center
    returns a triangle with the same (row, col, type). *)
Theorem centroid_self_containment :
  exists g,
    Game.newTonnetzGame = Returns g
    /\ Forall (fun t =>
         exists t',
           Game.findTriangleAtPosition (Game.tonnetz g)
             (Point.x (Game.Triangle.center t)) (Point.z (Game.Triangle.center t))
           = Returns (Some t')
           /\ Lattice.keyOf t' = Lattice.keyOf t)
       (Game.triangles (Game.tonnetz g)).
Proof.
  destruct (@constructGame_returns Game.defaultConfig) as (g & Hg & Htonnetz);
    [simpl; lia|].
  exists g. split; [exact Hg|]. rewrite Htonnetz.
  apply Forall_forall. intros t Hin.
  apply centroidLocated_sound.
  assert (Hall : forallb (Lattice.centroidLocated (Lattice.centered Game.defaultConfig))
                   (Game.triangles (Lattice.centered Game.defaultConfig)) = true)
    by (vm_compute; reflexivity).
  rewrite forallb_forall in Hall. exact (Hall t Hin).
Qed.

(** C7. The constructor returns a game, and after any sequence of later
    events the triangles of the lattice are the triangles as generated,
    each vertex and each center moved by the one offset
    (-(gridWidth * triangleSize) / 2, -(gridHeight * triHeight) / 2) with
    triHeight = triangleSize * sqrt 3 / 2: the offset has been added once,
    by the constructor, and no event adds it again. *)
Theorem centering_applied_once (this : Game.Config) (events : list Game.event) :
  (1 <= Game.gridHeight this)%nat ->
  let dx := (- (num (Game.gridWidth this) * Game.triangleSize this) / 2)%float in
  let dz := (- (num (Game.gridHeight this)
                * (Game.triangleSize this * PrimFloat.sqrt 3 / 2)) / 2)%float in
  exists sys g g',
    Game.construct this = Returns sys
    /\ Game.constructGame this = Returns g
    /\ Game.run events g = Returns g'
    /\ Forall2 (Lattice.movedBy dx dz)
         (Game.triangles sys) (Game.triangles (Game.tonnetz g'))
    /\ Game.triangles (Game.tonnetz g') = Game.triangles (Game.tonnetz g).
Proof.
  intros Hheight dx dz.
  destruct (@constructGame_returns this Hheight) as (g & Hg & Htonnetz).
  destruct (@run_tonnetz events g) as (g' & Hrun & Hsame).
  { rewrite Htonnetz. apply centered_threeVertices. }
  exists (Lattice.built this), g, g'.
  split; [apply construct_returns; assumption|].
  split; [exact Hg|]. split; [exact Hrun|].
  rewrite Hsame. split; [|reflexivity].
  rewrite Htonnetz. unfold Lattice.centered, Game.createTonnetzGrid.
  cbn [Game.triangles Lattice.built Game.config].
  induction (Lattice.trianglesOf this) as [|t ts IH]; simpl; constructor.
  - apply moveTriangle_movedBy.
  - exact IH.
Qed.

(** The game as shipped, after a short session: the offset is
    (-18, -(8 * (3 * sqrt 3 / 2)) / 2). *)
Lemma centering_applied_once_witness :
  exists sys g g',
    Game.newTonnetzSystem = Returns sys
    /\ Game.newTonnetzGame = Returns g
    /\ Game.run [Game.KeyDown (Some Game.KeyW); Game.Frame; Game.StartClick;
                 Game.Frame; Game.Resize; Game.KeyUp (Some Game.KeyW);
                 Game.KeyDown None; Game.Frame] g = Returns g'
    /\ Forall2 (Lattice.movedBy (-18) (- (8 * (3 * PrimFloat.sqrt 3 / 2)) / 2))
         (Game.triangles sys) (Game.triangles (Game.tonnetz g'))
    /\ Game.triangles (Game.tonnetz g') = Game.triangles (Game.tonnetz g).
Proof.
  apply (@centering_applied_once Game.defaultConfig
           [Game.KeyDown (Some Game.KeyW); Game.Frame; Game.StartClick;
            Game.Frame; Game.Resize; Game.KeyUp (Some Game.KeyW);
            Game.KeyDown None; Game.Frame]).
  simpl. lia.
Defined.

(** ** The second copy of the script *)

Section VariantGrid.

Import Variant.
Variable this : Config.

Lemma variant_generateGrid_returns :
  generateGrid this = Returns (VariantLattice.gridOf this).
Proof.
  unfold generateGrid. unfold for_ at 1.
  rewrite (@fill_grid _ (pitchClassAt this) (gridWidth this + 1)
             (gridHeight this + 1) 0%nat [] eq_refl).
  reflexivity.
Qed.

Lemma variant_gridOf_pc (row col : nat) :
  (row <= gridHeight this)%nat -> (col <= gridWidth this)%nat ->
  pcOf (VariantLattice.gridOf this) row col
  = Returns (VNum (pitchClassAt this row col)).
Proof.
  intros Hrow Hcol. unfold pcOf, JS.get, VariantLattice.gridOf.
  rewrite nth_error_map, nth_error_seq.
  replace (row <? gridHeight this + 1)%nat with true
    by (symmetry; apply Nat.ltb_lt; lia).
  cbn [option_map defined JS.bind].
  rewrite nth_error_map, nth_error_seq.
  replace (col <? gridWidth this + 1)%nat with true
    by (symmetry; apply Nat.ltb_lt; lia).
  reflexivity.
Qed.

Lemma variant_generateTriangles_returns :
  generateTriangles this (VariantLattice.gridOf this)
  = Returns (VariantLattice.trianglesOf this).
Proof.
  unfold generateTriangles, for_.
  rewrite for_range_ext with
    (body' := fun row acc =>
       Returns (acc ++ flat_map
                  (fun col => [VariantLattice.majorAt this row col;
                               VariantLattice.minorAt this row col])
                  (seq 0 (gridWidth this)))).
  - rewrite for_range_push. reflexivity.
  - intros row acc Hrow.
    rewrite for_range_ext with
      (body' := fun col acc =>
         Returns (acc ++ [VariantLattice.majorAt this row col;
                          VariantLattice.minorAt this row col])).
    + apply for_range_push.
    + intros col acc' Hcol.
      cbv beta iota zeta delta [corners].
      rewrite !variant_gridOf_pc by lia. cbn [JS.bind].
      rewrite <- app_assoc. reflexivity.
Qed.

Lemma variant_construct_returns :
  construct this = Returns (VariantLattice.built this).
Proof.
  unfold construct. rewrite variant_generateGrid_returns. cbn [JS.bind].
  rewrite variant_generateTriangles_returns. reflexivity.
Qed.

(** With the constructor's intervals the pitch class of a cell is the
    normalized residue as well: the sum is never negative. *)
Lemma variant_pitchClass (row col : nat) :
  majorThirdInterval this = 4 -> fifthInterval this = 7 ->
  pitchClassAt this row col
  = ((Z.of_nat row * 4 + Z.of_nat col * 7) mod 12 + 12) mod 12
  /\ 0 <= pitchClassAt this row col < 12.
Proof.
  intros Hthird Hfifth. unfold pitchClassAt. rewrite Hthird, Hfifth.
  rewrite Z.rem_mod_nonneg by lia.
  pose proof (Z.mod_pos_bound (Z.of_nat row * 4 + Z.of_nat col * 7) 12 ltac:(lia)).
  split; [|lia].
  apply Z.mod_unique with (q := 1); lia.
Qed.

Lemma variant_triangles_length :
  List.length (VariantLattice.trianglesOf this)
  = (2 * gridWidth this * gridHeight this)%nat.
Proof.
  unfold VariantLattice.trianglesOf.
  rewrite length_flat_map_const with (n := (gridWidth this * 2)%nat).
  - rewrite length_seq. lia.
  - intros row. rewrite length_flat_map_const with (n := 2%nat).
    + now rewrite length_seq.
    + reflexivity.
Qed.

End VariantGrid.

Section VariantTessellation.

Import Variant.
Variable this : Config.

Lemma variant_trianglesOf_Forall (P : Triangle.t -> Prop) :
  (forall row col,
      (row < gridHeight this)%nat -> (col < gridWidth this)%nat ->
      P (VariantLattice.majorAt this row col)
      /\ P (VariantLattice.minorAt this row col)) ->
  Forall P (VariantLattice.trianglesOf this).
Proof.
  intros HP. unfold VariantLattice.trianglesOf.
  apply Forall_flat_map_intro. intros row Hrow. apply in_seq in Hrow.
  apply Forall_flat_map_intro. intros col Hcol. apply in_seq in Hcol.
  destruct (HP row col) as [Hmajor Hminor]; [lia|lia|].
  repeat constructor; assumption.
Qed.

Lemma variant_trianglesOf_keys :
  map VariantLattice.keyOf (VariantLattice.trianglesOf this)
  = Lattice.keysInOrder (gridWidth this) (gridHeight this).
Proof.
  unfold VariantLattice.trianglesOf, Lattice.keysInOrder.
  rewrite map_flat_map_comm. apply flat_map_ext. intros row.
  rewrite map_flat_map_comm. apply flat_map_ext. intros col.
  reflexivity.
Qed.

Lemma variant_trianglesOf_wellFormed :
  majorThirdInterval this = 4 -> fifthInterval this = 7 ->
  Forall VariantLattice.wellFormed (VariantLattice.trianglesOf this).
Proof.
  intros Hthird Hfifth.
  apply variant_trianglesOf_Forall. intros row col _ _.
  destruct (variant_pitchClass this row col Hthird Hfifth) as [_ H00].
  destruct (variant_pitchClass this row (col + 1) Hthird Hfifth) as [_ H01].
  destruct (variant_pitchClass this (row + 1) col Hthird Hfifth) as [_ H10].
  destruct (variant_pitchClass this (row + 1) (col + 1) Hthird Hfifth) as [_ H11].
  unfold VariantLattice.wellFormed, VariantLattice.majorAt, VariantLattice.minorAt.
  cbv beta iota zeta delta [corners].
  cbn [majorTriangle minorTriangle Triangle.vertices Triangle.chord
       List.length JS.add].
  split; (split; [reflexivity|]); do 3 eexists;
    (split; [reflexivity|]); lia.
Qed.

Lemma variant_centered_threeVertices :
  Forall (fun t => List.length (Triangle.vertices t) = 3%nat)
    (triangles (VariantLattice.centered this)).
Proof.
  unfold VariantLattice.centered, createTonnetzGrid.
  cbn [triangles VariantLattice.built]. apply Forall_map.
  apply variant_trianglesOf_Forall. intros row col _ _.
  unfold VariantLattice.majorAt, VariantLattice.minorAt.
  cbv beta iota zeta delta [corners]. split; reflexivity.
Qed.

End VariantTessellation.

Section VariantSession.

Import Variant.

Lemma variant_checkPlayerPosition_tonnetz (g : TonnetzGame) :
  Forall (fun t => List.length (Triangle.vertices t) = 3%nat)
    (triangles (tonnetz g)) ->
  exists g', checkPlayerPosition g = Returns g' /\ tonnetz g' = tonnetz g.
Proof.
  intros Hthree. unfold checkPlayerPosition, findTriangleAtPosition.
  destruct (find_returns Vertex.position Triangle.vertices
              (Point.x (playerPosition g)) (Point.z (playerPosition g)) Hthree)
    as (found & ->).
  cbn [JS.bind].
  destruct found as [triangle|]; [|eauto].
  destruct (negb (isCurrent g triangle)); eauto.
Qed.

Lemma variant_handle_tonnetz (e : Game.event) (g : TonnetzGame) :
  Forall (fun t => List.length (Triangle.vertices t) = 3%nat)
    (triangles (tonnetz g)) ->
  exists g', handle e g = Returns g' /\ tonnetz g' = tonnetz g.
Proof.
  intros Hthree. destruct e as [[k|]|[k|]| | |]; cbn [handle]; eauto.
  unfold animate, updatePlayer.
  match goal with
  | |- exists g', checkPlayerPosition ?g0 = _ /\ _ =>
      destruct (@variant_checkPlayerPosition_tonnetz g0 Hthree)
        as (g' & Hret & Hsame)
  end.
  exists g'. split; [exact Hret|exact Hsame].
Qed.

Lemma variant_run_tonnetz (events : list Game.event) :
  forall g,
    Forall (fun t => List.length (Triangle.vertices t) = 3%nat)
      (triangles (tonnetz g)) ->
    exists g', run events g = Returns g' /\ tonnetz g' = tonnetz g.
Proof.
  induction events as [|e events IH]; intros g Hthree; cbn [run].
  - eauto.
  - destruct (@variant_handle_tonnetz e g Hthree) as (g1 & -> & H1).
    cbn [JS.bind].
    destruct (IH g1) as (g2 & Hrun & H2).
    + now rewrite H1.
    + exists g2. split; [assumption|congruence].
Qed.

Lemma variant_constructGame_returns (this : Config) :
  exists g,
    constructGame this = Returns g /\ tonnetz g = VariantLattice.centered this.
Proof.
  unfold constructGame. rewrite variant_construct_returns. cbn [JS.bind].
  match goal with
  | |- exists g, animate ?g0 = _ /\ _ =>
      destruct (@variant_handle_tonnetz Game.Frame g0
                  (variant_centered_threeVertices this))
        as (g & Hret & Hsame)
  end.
  exists g. split; [exact Hret|exact Hsame].
Qed.

Lemma variant_moveTriangle_movedBy (dx dz : float) (t : Triangle.t) :
  VariantLattice.movedBy dx dz t (moveTriangle dx dz t).
Proof.
  unfold VariantLattice.movedBy.
  cbn [moveTriangle Triangle.vertices Triangle.center Point.x Point.z].
  split; [|split; reflexivity].
  induction (Triangle.vertices t) as [|v vs IH]; simpl; constructor; auto.
Qed.

Lemma variant_sameTriangle_key (t1 t2 : Triangle.t) :
  sameTriangle t1 t2 = true -> VariantLattice.keyOf t1 = VariantLattice.keyOf t2.
Proof.
  unfold sameTriangle, VariantLattice.keyOf. intros Hsame.
  apply andb_true_iff in Hsame as [Hsame Htype].
  apply andb_true_iff in Hsame as [Hrow Hcol].
  apply Nat.eqb_eq in Hrow, Hcol. rewrite Hrow, Hcol.
  destruct (Triangle.type t1), (Triangle.type t2);
    try discriminate; reflexivity.
Qed.

Lemma variant_centroidLocated_sound (sys : TonnetzSystem) (t : Triangle.t) :
  VariantLattice.centroidLocated sys t = true ->
  exists t',
    findTriangleAtPosition sys
      (Point.x (Triangle.center t)) (Point.z (Triangle.center t))
    = Returns (Some t')
    /\ VariantLattice.keyOf t' = VariantLattice.keyOf t.
Proof.
  unfold VariantLattice.centroidLocated.
  destruct (findTriangleAtPosition sys _ _) as [[t'|]|]; try discriminate.
  intros Hsame. exists t'. split; [reflexivity|].
  now apply variant_sameTriangle_key.
Qed.

End VariantSession.

(** X2. In the second copy the grid cell at (row, col) is the bare pitch
    class (row*4 + col*7) % 12, which for the constructor's intervals is
    the normalized residue too, between 0 and 11. *)
Theorem variant_grid_pitchClass (this : Variant.Config) (row col : nat) :
  Variant.majorThirdInterval this = 4 ->
  Variant.fifthInterval this = 7 ->
  (row <= Variant.gridHeight this)%nat ->
  (col <= Variant.gridWidth this)%nat ->
  exists grid pc,
    Variant.generateGrid this = Returns grid
    /\ Variant.pcOf grid row col = Returns (VNum pc)
    /\ pc = ((Z.of_nat row * 4 + Z.of_nat col * 7) mod 12 + 12) mod 12
    /\ 0 <= pc < 12.
Proof.
  intros Hthird Hfifth Hrow Hcol.
  exists (VariantLattice.gridOf this), (Variant.pitchClassAt this row col).
  split; [apply variant_generateGrid_returns|].
  split; [apply variant_gridOf_pc; assumption|].
  apply variant_pitchClass; assumption.
Qed.

Lemma variant_grid_pitchClass_witness :
  exists grid pc,
    Variant.generateGrid Variant.defaultConfig = Returns grid
    /\ Variant.pcOf grid 8 12 = Returns (VNum pc)
    /\ pc = ((Z.of_nat 8 * 4 + Z.of_nat 12 * 7) mod 12 + 12) mod 12
    /\ 0 <= pc < 12.
Proof.
  apply (@variant_grid_pitchClass Variant.defaultConfig 8 12);
    [reflexivity | reflexivity | simpl; lia | simpl; lia].
Defined.

(** X3. In the second copy every generated triangle has three vertices and a
    chord of three integer notes between 60 and 71; the list has
    2 * gridWidth * gridHeight triangles whose keys run in row-major order,
    major before minor. *)
Theorem variant_triangles_shape (this : Variant.Config) :
  Variant.majorThirdInterval this = 4 ->
  Variant.fifthInterval this = 7 ->
  exists sys,
    Variant.construct this = Returns sys
    /\ Forall VariantLattice.wellFormed (Variant.triangles sys)
    /\ List.length (Variant.triangles sys)
       = (2 * Variant.gridWidth this * Variant.gridHeight this)%nat
    /\ map VariantLattice.keyOf (Variant.triangles sys)
       = Lattice.keysInOrder (Variant.gridWidth this) (Variant.gridHeight this).
Proof.
  intros Hthird Hfifth.
  eexists. split; [apply variant_construct_returns|].
  cbn [Variant.triangles VariantLattice.built].
  split; [apply variant_trianglesOf_wellFormed; assumption|].
  split; [apply variant_triangles_length|apply variant_trianglesOf_keys].
Qed.

Lemma variant_triangles_shape_witness :
  exists sys,
    Variant.newTonnetzSystem = Returns sys
    /\ Forall VariantLattice.wellFormed (Variant.triangles sys)
    /\ List.length (Variant.triangles sys) = 192%nat
    /\ map VariantLattice.keyOf (Variant.triangles sys) = Lattice.keysInOrder 12 8.
Proof.
  apply (@variant_triangles_shape Variant.defaultConfig); reflexivity.
Defined.

(** X4. In the second copy too, the center of every triangle of the centered
    list is found in a triangle with the same key, and the far point
    (10000, 10000) is in no triangle. *)
Theorem variant_centroid_self_containment :
  exists g,
    Variant.newTonnetzGame = Returns g
    /\ Forall (fun t =>
         exists t',
           Variant.findTriangleAtPosition (Variant.tonnetz g)
             (Point.x (Variant.Triangle.center t))
             (Point.z (Variant.Triangle.center t))
           = Returns (Some t')
           /\ VariantLattice.keyOf t' = VariantLattice.keyOf t)
       (Variant.triangles (Variant.tonnetz g))
    /\ Variant.findTriangleAtPosition (Variant.tonnetz g) 10000 10000
       = Returns None.
Proof.
  destruct (variant_constructGame_returns Variant.defaultConfig)
    as (g & Hg & Htonnetz).
  exists g. split; [exact Hg|]. rewrite Htonnetz. split.
  - apply Forall_forall. intros t Hin.
    apply variant_centroidLocated_sound.
    assert (Hall : forallb
                     (VariantLattice.centroidLocated
                        (VariantLattice.centered Variant.defaultConfig))
                     (Variant.triangles
                        (VariantLattice.centered Variant.defaultConfig)) = true)
      by (vm_compute; reflexivity).
    rewrite forallb_forall in Hall. exact (Hall t Hin).
  - vm_compute. reflexivity.
Qed.

(** X5. In the second copy too, after the constructor and any later
    events the triangles are the generated ones moved once by the offset. *)
Theorem variant_centering_applied_once (this : Variant.Config)
    (events : list Game.event) :
  let dx := (- (num (Variant.gridWidth this) * Variant.triangleSize this) / 2)%float in
  let dz := (- (num (Variant.gridHeight this)
                * (Variant.triangleSize this * PrimFloat.sqrt 3 / 2)) / 2)%float in
  exists sys g g',
    Variant.construct this = Returns sys
    /\ Variant.constructGame this = Returns g
    /\ Variant.run events g = Returns g'
    /\ Forall2 (VariantLattice.movedBy dx dz)
         (Variant.triangles sys) (Variant.triangles (Variant.tonnetz g'))
    /\ Variant.triangles (Variant.tonnetz g') = Variant.triangles (Variant.tonnetz g).
Proof.
  intros dx dz.
  destruct (variant_constructGame_returns this) as (g & Hg & Htonnetz).
  destruct (@variant_run_tonnetz events g) as (g' & Hrun & Hsame).
  { rewrite Htonnetz. apply variant_centered_threeVertices. }
  exists (VariantLattice.built this), g, g'.
  split; [apply variant_construct_returns|].
  split; [exact Hg|]. split; [exact Hrun|].
  rewrite Hsame. split; [|reflexivity].
  rewrite Htonnetz. unfold VariantLattice.centered, Variant.createTonnetzGrid.
  cbn [Variant.triangles VariantLattice.built Variant.config].
  induction (VariantLattice.trianglesOf this) as [|t ts IH]; simpl; constructor.
  - apply variant_moveTriangle_movedBy.
  - exact IH.
Qed.

(** C3, where the code departs from it.  The second copy shifts odd rows
    only.  Grid vertex (2, 0) is the third vertex of the major triangle of
    cell (1, 0), which puts it at x = 3, and the first vertex of the major
    triangle of cell (2, 0), which puts it at x = 0; both give it the same
    pitch class and the same z.  The cumulative rule asks for
    x = 0 * 3 + 2 * (3 / 2) = 3. *)
Theorem variant_vertex_placed_twice :
  exists sys t1 t2 a b,
    Variant.newTonnetzSystem = Returns sys
    /\ JS.get (Variant.triangles sys) 24 = Some t1
    /\ VariantLattice.keyOf t1 = (1%nat, 0%nat, major)
    /\ JS.get (Variant.Triangle.vertices t1) 2 = Some a
    /\ JS.get (Variant.triangles sys) 48 = Some t2
    /\ VariantLattice.keyOf t2 = (2%nat, 0%nat, major)
    /\ JS.get (Variant.Triangle.vertices t2) 0 = Some b
    /\ Variant.Vertex.pitchClass a = Variant.Vertex.pitchClass b
    /\ Variant.Vertex.z a = Variant.Vertex.z b
    /\ Variant.Vertex.x a = 3%float
    /\ Variant.Vertex.x b = 0%float
    /\ (num 0 * 3 + num 2 * (3 / 2))%float = 3%float.
Proof.
  do 5 eexists.
  split; [apply variant_construct_returns|].
  split; [vm_compute; reflexivity|].
  split; [reflexivity|].
  split; [reflexivity|].
  split; [vm_compute; reflexivity|].
  split; [reflexivity|].
  split; [reflexivity|].
  repeat split; vm_compute; reflexivity.
Qed.

(** ** Triads *)

Lemma pitchClassAt_mod (this : Game.Config) (row col : nat) :
  Game.majorThirdInterval this = 4 ->
  Game.fifthInterval this = 7 ->
  Game.pitchClassAt this row col = (Z.of_nat row * 4 + Z.of_nat col * 7) mod 12.
Proof.
  intros Hthird Hfifth. unfold Game.pitchClassAt. rewrite Hthird, Hfifth.
  rewrite normalized_nonneg by lia.
  pose proof (Z.mod_pos_bound (Z.of_nat row * 4 + Z.of_nat col * 7) 12 ltac:(lia)).
  symmetry. apply Z.mod_unique with (q := 1); lia.
Qed.

(** X8. The chords of the tessellation of [src/game.js] are triads within
    the octave of middle C: the major triangle of a cell whose pitch class
    is pc has the chord [60 + pc, 60 + (pc + 4) mod 12, 60 + (pc + 7) mod 12],
    and the minor triangle, rooted at r = pc(row + 1, col), has the chord
    [60 + r, 60 + (r + 3) mod 12, 60 + (r + 7) mod 12]. *)
Theorem tessellation_chords_are_triads (this : Game.Config) (row col : nat) :
  Game.majorThirdInterval this = 4 ->
  Game.fifthInterval this = 7 ->
  let pc := Game.pitchClassAt this row col in
  let r := Game.pitchClassAt this (row + 1) col in
  Game.Triangle.chord (Lattice.majorAt this row col)
  = [60 + pc; 60 + (pc + 4) mod 12; 60 + (pc + 7) mod 12]
  /\ Game.Triangle.chord (Lattice.minorAt this row col)
     = [60 + r; 60 + (r + 3) mod 12; 60 + (r + 7) mod 12].
Proof.
  intros Hthird Hfifth pc r. subst pc r.
  unfold Lattice.majorAt, Lattice.minorAt.
  cbn [Game.majorTriangle Game.minorTriangle Game.Triangle.chord
       Game.cellAt Game.cell_pitchClass].
  rewrite !pitchClassAt_mod by assumption.
  rewrite !Zplus_mod_idemp_l.
  replace (Z.of_nat (row + 1)) with (Z.of_nat row + 1) by lia.
  replace (Z.of_nat (col + 1)) with (Z.of_nat col + 1) by lia.
  split.
  - f_equal. f_equal; [f_equal; f_equal; lia|].
    f_equal. f_equal. f_equal. lia.
  - f_equal. f_equal; [f_equal; f_equal; lia|].
    f_equal. f_equal. f_equal. lia.
Qed.

Lemma tessellation_chords_are_triads_witness :
  Game.Triangle.chord (Lattice.majorAt Game.defaultConfig 0 1) = [67; 71; 62]
  /\ Game.Triangle.chord (Lattice.minorAt Game.defaultConfig 0 1) = [71; 62; 66].
Proof.
  exact (@tessellation_chords_are_triads Game.defaultConfig 0 1 eq_refl eq_refl).
Defined.

(** ** The triad helpers *)

(** In [src/game.js] the grid holds cell objects, so for every cell of
    the grid both helpers return three strings. *)
Lemma game_triads_are_strings (this : Game.Config) (row col : nat) :
  (row <= Game.gridHeight this)%nat -> (col <= Game.gridWidth this)%nat ->
  Game.getMajorTriad (Lattice.built this) row col
  = Returns [VStr "60[object Object]"; VStr "60[object Object]4";
             VStr "60[object Object]7"]
  /\ Game.getMinorTriad (Lattice.built this) row col
     = Returns [VStr "60[object Object]"; VStr "60[object Object]3";
                VStr "60[object Object]7"].
Proof.
  intros Hrow Hcol.
  assert (Hroot : Game.rootOf (Lattice.built this) row col = Returns VObject).
  { unfold Game.rootOf. cbn [Game.grid Lattice.built].
    rewrite gridOf_row by assumption. cbn [defined JS.bind].
    unfold JS.get. rewrite nth_error_map, nth_error_seq.
    replace (col <? Game.gridWidth this + 1)%nat with true
      by (symmetry; apply Nat.ltb_lt; lia).
    reflexivity. }
  unfold Game.getMajorTriad, Game.getMinorTriad. rewrite Hroot.
  split; reflexivity.
Qed.

(** In the second copy the helpers add 4 (or 3) and 7 to the root's note
    without reducing modulo 12. *)
Lemma variant_triads_unreduced (this : Variant.Config) (row col : nat) :
  (row <= Variant.gridHeight this)%nat -> (col <= Variant.gridWidth this)%nat ->
  let pc := Variant.pitchClassAt this row col in
  Variant.getMajorTriad (VariantLattice.built this) row col
  = Returns [VNum (60 + pc); VNum (60 + pc + 4); VNum (60 + pc + 7)]
  /\ Variant.getMinorTriad (VariantLattice.built this) row col
     = Returns [VNum (60 + pc); VNum (60 + pc + 3); VNum (60 + pc + 7)].
Proof.
  intros Hrow Hcol pc.
  unfold Variant.getMajorTriad, Variant.getMinorTriad.
  cbn [Variant.grid VariantLattice.built].
  rewrite variant_gridOf_pc by assumption.
  split; reflexivity.
Qed.

(** C8, where the code departs from it: the helpers at cell (0, 1),
    whose pitch class is 7.  [src/game.js] returns strings.  The second
    copy returns [67, 71, 74] and [67, 70, 74]: the fifth leaves the
    octave, where reduction modulo 12 gives 62.  The major triangle the
    tessellation builds on that cell has the chord [67, 71, 62]. *)
Theorem triads_at_cell_0_1 :
  (exists sys t,
     Game.newTonnetzSystem = Returns sys
     /\ Game.getMajorTriad sys 0 1
        = Returns [VStr "60[object Object]"; VStr "60[object Object]4";
                   VStr "60[object Object]7"]
     /\ Game.getMinorTriad sys 0 1
        = Returns [VStr "60[object Object]"; VStr "60[object Object]3";
                   VStr "60[object Object]7"]
     /\ JS.get (Game.triangles sys) 2 = Some t
     /\ Lattice.keyOf t = (0%nat, 1%nat, major)
     /\ Game.Triangle.chord t = [67; 71; 62])
  /\ (exists sys t,
        Variant.newTonnetzSystem = Returns sys
        /\ Variant.getMajorTriad sys 0 1 = Returns [VNum 67; VNum 71; VNum 74]
        /\ Variant.getMinorTriad sys 0 1 = Returns [VNum 67; VNum 70; VNum 74]
        /\ JS.get (Variant.triangles sys) 2 = Some t
        /\ VariantLattice.keyOf t = (0%nat, 1%nat, major)
        /\ Variant.Triangle.chord t = [VNum 67; VNum 71; VNum 62])
  /\ 60 + (7 + 7) mod 12 = 62.
Proof.
  split; [|split].
  - do 2 eexists. split; [apply construct_returns; simpl; lia|].
    destruct (@game_triads_are_strings Game.defaultConfig 0 1) as [Hmajor Hminor];
      [simpl; lia | simpl; lia |].
    split; [exact Hmajor|]. split; [exact Hminor|].
    split; [vm_compute; reflexivity|].
    split; reflexivity.
  - do 2 eexists. split; [apply variant_construct_returns|].
    destruct (@variant_triads_unreduced Variant.defaultConfig 0 1) as [Hmajor Hminor];
      [simpl; lia | simpl; lia |].
    split; [exact Hmajor|]. split; [exact Hminor|].
    split; [vm_compute; reflexivity|].
    split; reflexivity.
  - reflexivity.
Qed.

(** * Properties of the other methods *)

(** ** Names and notes *)

Lemma name_at_some (table : list string) (pc : Z) :
  (12 <= List.length table)%nat -> 0 <= pc < 12 ->
  exists name, Game.name_at table pc = Some name.
Proof.
  intros Hlen Hpc. unfold Game.name_at, JS.get.
  replace (pc <? 0) with false by (symmetry; apply Z.ltb_ge; lia).
  destruct (nth_error table (Z.to_nat pc)) as [name|] eqn:Hnth; [eauto|].
  apply nth_error_None in Hnth. lia.
Qed.

Lemma rem_of_note (pc : Z) : 0 <= pc < 12 -> Z.rem (60 + pc) 12 = pc.
Proof.
  intros Hpc. rewrite Z.rem_mod_nonneg by lia.
  symmetry. apply Z.mod_unique with (q := 5); lia.
Qed.

(** X9. With the intervals 4 and 7 of the constructor, and [noteNames]
    and [pitchClassToName] the same table of at least twelve names, as the
    constructor sets them, [getChordName] applied to the chord and type of
    any generated triangle gives the [chordName] stored in the triangle.
    The intervals are fixed because the grid arithmetic is modelled on
    integers, which is what the code computes for them. *)
Theorem getChordName_of_triangle (this : Game.Config) :
  Game.majorThirdInterval this = 4 ->
  Game.fifthInterval this = 7 ->
  (1 <= Game.gridHeight this)%nat ->
  Game.noteNames this = Game.pitchClassToName this ->
  (12 <= List.length (Game.pitchClassToName this))%nat ->
  exists sys,
    Game.construct this = Returns sys
    /\ Forall (fun t =>
         Chords.getChordName (Game.noteNames this)
           (Game.Triangle.chord t) (Game.Triangle.type t)
         = VStr (Game.Triangle.chordName t))
       (Game.triangles sys).
Proof.
  intros _ _ Hheight Htables Hlen.
  eexists. split; [apply construct_returns; assumption|].
  cbn [Game.triangles Lattice.built].
  apply trianglesOf_Forall. intros row col _ _.
  unfold Lattice.majorAt, Lattice.minorAt, Chords.getChordName, Chords.rootNote.
  cbn [Game.majorTriangle Game.minorTriangle Game.Triangle.chord
       Game.Triangle.type Game.Triangle.chordName JS.get nth_error
       Game.cellAt Game.cell_pitchClass Game.cell_noteName].
  rewrite Htables.
  rewrite !rem_of_note by apply pitchClassAt_range.
  unfold Game.getNoteName, Variant.nameOf.
  destruct (@name_at_some _ _ Hlen (pitchClassAt_range this row col)) as (n0 & ->).
  destruct (@name_at_some _ _ Hlen (pitchClassAt_range this (row + 1) col)) as (n2 & ->).
  split; reflexivity.
Qed.

Lemma getChordName_of_triangle_witness :
  exists sys,
    Game.newTonnetzSystem = Returns sys
    /\ Forall (fun t =>
         Chords.getChordName Game.flatNames
           (Game.Triangle.chord t) (Game.Triangle.type t)
         = VStr (Game.Triangle.chordName t))
       (Game.triangles sys).
Proof.
  apply (@getChordName_of_triangle Game.defaultConfig);
    [reflexivity | reflexivity | simpl; lia | reflexivity | simpl; lia].
Defined.

(** X10. [getChordName] never throws.  For a chord without a first note,
    or with a first note whose remainder modulo 12 is negative or past the
    end of the table, it returns [undefined] for a major chord and the
    string "undefinedm" otherwise. *)
Theorem getChordName_without_name (noteNames : list string) (midiNotes : list Z) :
  (midiNotes = []
   \/ exists note rest,
        midiNotes = note :: rest
        /\ (Z.rem note 12 < 0
            \/ Z.of_nat (List.length noteNames) <= Z.rem note 12)) ->
  Chords.getChordName noteNames midiNotes major = VUndefined
  /\ Chords.getChordName noteNames midiNotes minor = VStr "undefinedm".
Proof.
  intros [->|(note & rest & -> & Hout)].
  - split; reflexivity.
  - unfold Chords.getChordName, Chords.rootNote.
    cbn [JS.get nth_error Variant.nameOf].
    assert (Hnone : Game.name_at noteNames (Z.rem note 12) = None).
    { unfold Game.name_at, JS.get.
      destruct (Z.rem note 12 <? 0) eqn:Hneg; [reflexivity|].
      apply Z.ltb_ge in Hneg. apply nth_error_None. lia. }
    rewrite Hnone. split; reflexivity.
Qed.

Lemma getChordName_without_name_witness :
  Chords.getChordName Game.flatNames [-1; 3; 6] major = VUndefined
  /\ Chords.getChordName Game.flatNames [-1; 3; 6] minor = VStr "undefinedm".
Proof.
  apply getChordName_without_name.
  right. exists (-1), [3; 6]. split; [reflexivity|]. left. reflexivity.
Defined.

(** X11. In every generated triangle of [src/game.js] the notes of the
    chord are the notes of the three vertices (60 plus the pitch class of
    each vertex, in some order), and the name of each vertex is the name
    [getNoteName] gives its pitch class: what the display lists as vertex
    notes are the notes played. *)
Theorem vertices_carry_the_chord (this : Game.Config) :
  (1 <= Game.gridHeight this)%nat ->
  exists sys,
    Game.construct this = Returns sys
    /\ Forall (fun t =>
         Permutation
           (map (fun v => 60 + Game.Vertex.pitchClass v) (Game.Triangle.vertices t))
           (Game.Triangle.chord t)
         /\ Forall (fun v =>
              Game.Vertex.noteName v
              = Game.getNoteName this (Game.Vertex.pitchClass v))
            (Game.Triangle.vertices t))
       (Game.triangles sys).
Proof.
  intros Hheight.
  eexists. split; [apply construct_returns; assumption|].
  cbn [Game.triangles Lattice.built].
  apply trianglesOf_Forall. intros row col _ _.
  unfold Lattice.majorAt, Lattice.minorAt.
  cbn [Game.majorTriangle Game.minorTriangle Game.Triangle.chord
       Game.Triangle.vertices map Game.mkVertex Game.Vertex.pitchClass
       Game.Vertex.noteName Game.cellAt Game.cell_pitchClass Game.cell_noteName].
  split; split.
  - apply perm_skip. apply perm_swap.
  - repeat constructor.
  - apply Permutation_refl.
  - repeat constructor.
Qed.

Lemma vertices_carry_the_chord_witness :
  exists sys,
    Game.newTonnetzSystem = Returns sys
    /\ Forall (fun t =>
         Permutation
           (map (fun v => 60 + Game.Vertex.pitchClass v) (Game.Triangle.vertices t))
           (Game.Triangle.chord t)
         /\ Forall (fun v =>
              Game.Vertex.noteName v
              = Game.getNoteName Game.defaultConfig (Game.Vertex.pitchClass v))
            (Game.Triangle.vertices t))
       (Game.triangles sys).
Proof.
  apply (@vertices_carry_the_chord Game.defaultConfig). simpl. lia.
Defined.

(** X12. With the intervals 4 and 7 of the constructor, [generateGrid]
    returns gridHeight + 1 rows of gridWidth + 1 cells each, and with a
    table of at least twelve names the name of every cell is the table
    entry of its pitch class: the fallback ['?'] of [getNoteName] is never
    used.  The intervals are fixed because the grid arithmetic is modelled
    on integers, which is what the code computes for them. *)
Theorem generateGrid_shape (this : Game.Config) :
  Game.majorThirdInterval this = 4 ->
  Game.fifthInterval this = 7 ->
  (1 <= Game.gridHeight this)%nat ->
  (12 <= List.length (Game.pitchClassToName this))%nat ->
  exists grid,
    Game.generateGrid this = Returns grid
    /\ List.length grid = (Game.gridHeight this + 1)%nat
    /\ Forall (fun cells =>
         List.length cells = (Game.gridWidth this + 1)%nat
         /\ Forall (fun cell =>
              Game.name_at (Game.pitchClassToName this) (Game.cell_pitchClass cell)
              = Some (Game.cell_noteName cell))
            cells)
       grid.
Proof.
  intros _ _ Hheight Hlen.
  exists (Lattice.gridOf this).
  split; [apply generateGrid_returns; assumption|].
  unfold Lattice.gridOf. split; [now rewrite length_map, length_seq|].
  apply Forall_map, Forall_forall. intros row _.
  split; [now rewrite length_map, length_seq|].
  apply Forall_map, Forall_forall. intros col _.
  cbn [Game.cellAt Game.cell_pitchClass Game.cell_noteName].
  unfold Game.getNoteName.
  destruct (@name_at_some _ _ Hlen (pitchClassAt_range this row col)) as (name & ->).
  reflexivity.
Qed.

Lemma generateGrid_shape_witness :
  exists grid,
    Game.generateGrid Game.defaultConfig = Returns grid
    /\ List.length grid = 9%nat
    /\ Forall (fun cells =>
         List.length cells = 13%nat
         /\ Forall (fun cell =>
              Game.name_at Game.flatNames (Game.cell_pitchClass cell)
              = Some (Game.cell_noteName cell))
            cells)
       grid.
Proof.
  apply (@generateGrid_shape Game.defaultConfig);
    [reflexivity | reflexivity | simpl; lia | simpl; lia].
Defined.

(** ** The game loop of [src/game.js] *)

Section GameLoop.

Import Game.

Lemma sameTriangle_refl (t : Triangle.t) : sameTriangle t t = true.
Proof.
  unfold sameTriangle. rewrite !Nat.eqb_refl.
  destruct (Triangle.type t); reflexivity.
Qed.

(** What the scan returns is a triangle of the list. *)
Lemma find_in (this : TonnetzSystem) (x z : float) (t : Triangle.t) :
  findTriangleAtPosition this x z = Returns (Some t) -> In t (triangles this).
Proof.
  intros Hfind. apply find_first_match in Hfind as (before & after & -> & _).
  apply in_elt.
Qed.

(** One check of the player's position, case by case. *)
Lemma checkPlayerPosition_cases (g g' : TonnetzGame) :
  checkPlayerPosition g = Returns g' ->
  g' = g
  \/ exists t,
       findTriangleAtPosition (tonnetz g)
         (Point.x (playerPosition g)) (Point.z (playerPosition g))
       = Returns (Some t)
       /\ isCurrent g t = false
       /\ g' = {| audioInitialized := audioInitialized g;
                  tonnetz := tonnetz g;
                  playerSpeed := playerSpeed g;
                  friction := friction g;
                  velocity := velocity g;
                  playerPosition := playerPosition g;
                  keys := keys g;
                  currentTriangle := Some t;
                  emitted := emitted g ++ [Region.emissionOf t] |}.
Proof.
  unfold checkPlayerPosition.
  destruct (findTriangleAtPosition _ _ _) as [[t|]|] eqn:Hfind;
    cbn [JS.bind]; try discriminate.
  - destruct (isCurrent g t) eqn:Hcurrent; cbn [negb].
    + intros [= <-]. now left.
    + intros [= <-]. right. exists t. auto.
  - intros [= <-]. now left.
Qed.

Lemma checkPlayerPosition_displayed (g g' : TonnetzGame) :
  Region.displayed g ->
  checkPlayerPosition g = Returns g' ->
  Region.displayed g'.
Proof.
  intros Hshown Hcheck.
  apply checkPlayerPosition_cases in Hcheck as [->|(t & Hfind & _ & ->)];
    [assumption|].
  unfold Region.displayed.
  cbn [currentTriangle tonnetz emitted].
  split; [eapply find_in; eassumption|eauto].
Qed.

Lemma handle_displayed (e : event) (g g' : TonnetzGame) :
  Region.displayed g -> handle e g = Returns g' -> Region.displayed g'.
Proof.
  intros Hshown.
  destruct e as [[k|]|[k|]| | |]; cbn [handle];
    try (intros [= <-]; exact Hshown).
  unfold animate, updatePlayer.
  apply checkPlayerPosition_displayed. exact Hshown.
Qed.

Lemma run_displayed (events : list event) :
  forall g g',
    Region.displayed g -> run events g = Returns g' -> Region.displayed g'.
Proof.
  induction events as [|e events IH]; intros g g' Hshown; cbn [run].
  - intros [= <-]. exact Hshown.
  - destruct (handle e g) as [g1|] eqn:Hhandle; cbn [JS.bind]; [|discriminate].
    apply IH. eapply handle_displayed; eassumption.
Qed.

End GameLoop.

(** X13. A second check of the player's position right after a first one
    changes nothing: while the player stays where it is, no further chord
    is handed to the audio system and the display is not rewritten. *)
Theorem checkPlayerPosition_settles (g g' : Game.TonnetzGame) :
  Game.checkPlayerPosition g = Returns g' ->
  Game.checkPlayerPosition g' = Returns g'.
Proof.
  intros Hcheck.
  destruct (@checkPlayerPosition_cases g g' Hcheck) as [->|(t & Hfind & _ & ->)];
    [assumption|].
  unfold Game.checkPlayerPosition.
  cbn [Game.tonnetz Game.playerPosition]. rewrite Hfind. cbn [JS.bind].
  unfold Game.isCurrent. cbn [Game.currentTriangle].
  rewrite sameTriangle_refl. reflexivity.
Qed.

Lemma checkPlayerPosition_settles_witness :
  exists g g',
    Game.newTonnetzGame = Returns g
    /\ Game.checkPlayerPosition g = Returns g'
    /\ Game.checkPlayerPosition g' = Returns g'.
Proof.
  destruct (@constructGame_returns Game.defaultConfig) as (g & Hg & Htonnetz);
    [simpl; lia|].
  destruct (@checkPlayerPosition_tonnetz g) as (g' & Hcheck & _).
  { rewrite Htonnetz. apply centered_threeVertices. }
  exists g, g'. split; [exact Hg|]. split; [exact Hcheck|].
  exact (@checkPlayerPosition_settles g g' Hcheck).
Defined.

(** X14. After the constructor and any later events the display agrees
    with the current triangle: either there is no current triangle and
    nothing has been handed over, or the current triangle is one of the
    lattice and the last chord, chord name and vertex names handed over
    are its own. *)
Theorem display_follows_current_triangle (this : Game.Config)
    (events : list Game.event) :
  (1 <= Game.gridHeight this)%nat ->
  exists g g',
    Game.constructGame this = Returns g
    /\ Game.run events g = Returns g'
    /\ match Game.currentTriangle g' with
       | None => Game.emitted g' = []
       | Some t =>
           In t (Game.triangles (Game.tonnetz g'))
           /\ exists earlier,
                Game.emitted g'
                = earlier ++ [ {| Game.played := Game.Triangle.chord t;
                                  Game.shownChord := Game.Triangle.chordName t;
                                  Game.shownNotes :=
                                    Game.join (map Game.Vertex.noteName
                                                 (Game.Triangle.vertices t)) |} ]
       end.
Proof.
  intros Hheight.
  destruct (@constructGame_returns this Hheight) as (g & Hg & Htonnetz).
  destruct (@run_tonnetz events g) as (g' & Hrun & _).
  { rewrite Htonnetz. apply centered_threeVertices. }
  exists g, g'. split; [exact Hg|]. split; [exact Hrun|].
  change (Region.displayed g').
  apply (@run_displayed events g g'); [|exact Hrun].
  unfold Game.constructGame in Hg.
  rewrite construct_returns in Hg by assumption. cbn [JS.bind] in Hg.
  unfold Game.animate, Game.updatePlayer in Hg.
  eapply checkPlayerPosition_displayed; [|exact Hg].
  reflexivity.
Qed.

Lemma display_follows_current_triangle_witness :
  exists g g',
    Game.newTonnetzGame = Returns g
    /\ Game.run [Game.KeyDown (Some Game.KeyD); Game.Frame; Game.Frame;
                 Game.KeyUp (Some Game.KeyD); Game.Frame] g = Returns g'
    /\ Region.displayed g'.
Proof.
  apply (@display_follows_current_triangle Game.defaultConfig
           [Game.KeyDown (Some Game.KeyD); Game.Frame; Game.Frame;
            Game.KeyUp (Some Game.KeyD); Game.Frame]).
  simpl. lia.
Defined.

Section AtRest.

Import Game.

Lemma checkPlayerPosition_settled (g g' : TonnetzGame) :
  checkPlayerPosition g = Returns g' -> Region.settled g'.
Proof.
  unfold checkPlayerPosition.
  destruct (findTriangleAtPosition (tonnetz g) _ _) as [[t|]|] eqn:Hfind;
    cbn [JS.bind]; try discriminate.
  - destruct (isCurrent g t) eqn:Hcurrent; cbn [negb]; intros [= <-].
    + intros t' Hfind'. congruence.
    + intros t' Hfind'. cbn [tonnetz playerPosition] in Hfind'.
      unfold isCurrent. cbn [currentTriangle].
      replace t' with t by congruence. apply sameTriangle_refl.
  - intros [= <-] t' Hfind'. congruence.
Qed.

Lemma settled_check (g : TonnetzGame) :
  Lattice.threeVertices (triangles (tonnetz g)) ->
  Region.settled g ->
  checkPlayerPosition g = Returns g.
Proof.
  intros Hthree Hsettled. unfold checkPlayerPosition.
  destruct (find_returns Vertex.position Triangle.vertices
              (Point.x (playerPosition g)) (Point.z (playerPosition g)) Hthree)
    as (found & Hfind).
  unfold findTriangleAtPosition. rewrite Hfind. cbn [JS.bind].
  destruct found as [t|]; [|reflexivity].
  rewrite (Hsettled t Hfind). reflexivity.
Qed.

(** A frame at rest leaves the game as it is. *)
Lemma resting_frame (g : TonnetzGame) :
  Lattice.threeVertices (triangles (tonnetz g)) ->
  Region.settled g -> Region.resting g ->
  animate g = Returns g.
Proof.
  intros Hthree Hsettled (Hv & Hp & Hk & Hs & Hf).
  unfold animate, updatePlayer.
  rewrite <- (@settled_check g Hthree Hsettled).
  f_equal. destruct g; cbn in *. subst. reflexivity.
Qed.

Lemma resting_handle (e : event) (g : TonnetzGame) :
  Lattice.threeVertices (triangles (tonnetz g)) ->
  Region.settled g -> Region.resting g ->
  Region.pressesKey e = false ->
  exists g',
    handle e g = Returns g'
    /\ tonnetz g' = tonnetz g
    /\ Region.settled g' /\ Region.resting g'
    /\ emitted g' = emitted g
    /\ currentTriangle g' = currentTriangle g.
Proof.
  intros Hthree Hsettled Hrest Hquiet.
  destruct e as [[k|]|[k|]| | |]; cbn [handle]; try discriminate Hquiet;
    try (exists g; repeat split; solve [assumption | reflexivity | apply Hrest]).
  - eexists. split; [reflexivity|]. split; [reflexivity|].
    destruct Hrest as (Hv & Hp & Hk & Hs & Hf).
    split; [exact Hsettled|]. split; [|split; reflexivity].
    unfold Region.resting. cbn [withKeys velocity playerPosition keys playerSpeed friction].
    rewrite Hk. repeat split; try assumption. destruct k; reflexivity.
  - eexists. split; [reflexivity|]. split; [reflexivity|].
    split; [exact Hsettled|]. split; [exact Hrest|]. split; reflexivity.
  - exists g. rewrite (@resting_frame g Hthree Hsettled Hrest).
    repeat split; solve [assumption | reflexivity | apply Hrest].
Qed.

Lemma resting_run (events : list event) :
  forall g,
    Lattice.threeVertices (triangles (tonnetz g)) ->
    Region.settled g -> Region.resting g ->
    forallb (fun e => negb (Region.pressesKey e)) events = true ->
    exists g',
      run events g = Returns g'
      /\ Region.resting g'
      /\ emitted g' = emitted g
      /\ currentTriangle g' = currentTriangle g.
Proof.
  induction events as [|e events IH]; intros g Hthree Hsettled Hrest Hquiet;
    cbn [run].
  - exists g. auto.
  - cbn [forallb] in Hquiet. apply andb_true_iff in Hquiet as [He Hquiet].
    apply negb_true_iff in He.
    destruct (@resting_handle e g Hthree Hsettled Hrest He)
      as (g1 & -> & Htonnetz & Hsettled1 & Hrest1 & Hemitted1 & Hcurrent1).
    cbn [JS.bind].
    destruct (IH g1) as (g2 & Hrun & Hrest2 & Hemitted2 & Hcurrent2);
      try assumption.
    + now rewrite Htonnetz.
    + exists g2. split; [exact Hrun|]. split; [exact Hrest2|].
      split; congruence.
Qed.

End AtRest.

(** X15. Until one of the keys w, a, s, d is pressed the player does not
    move: after the constructor and any events among which no such key
    press occurs, the player is at the origin with zero velocity, and
    nothing has been handed over beyond what the constructor's own first
    frame handed over. *)
Theorem player_rests_until_key_press (this : Game.Config)
    (events : list Game.event) :
  (1 <= Game.gridHeight this)%nat ->
  forallb (fun e => negb (Region.pressesKey e)) events = true ->
  exists g g',
    Game.constructGame this = Returns g
    /\ Game.run events g = Returns g'
    /\ Game.playerPosition g' = {| Point.x := 0; Point.z := 0 |}
    /\ Game.velocity g' = {| Point.x := 0; Point.z := 0 |}
    /\ Game.emitted g' = Game.emitted g
    /\ Game.currentTriangle g' = Game.currentTriangle g.
Proof.
  intros Hheight Hquiet.
  destruct (@constructGame_returns this Hheight) as (g & Hg & Htonnetz).
  assert (Hthree : Lattice.threeVertices (Game.triangles (Game.tonnetz g))).
  { rewrite Htonnetz. apply centered_threeVertices. }
  assert (Hsettled : Region.settled g /\ Region.resting g).
  { unfold Game.constructGame in Hg.
    rewrite construct_returns in Hg by assumption. cbn [JS.bind] in Hg.
    unfold Game.animate, Game.updatePlayer in Hg. split.
    - eapply checkPlayerPosition_settled. exact Hg.
    - destruct (@checkPlayerPosition_cases _ g Hg) as [Heq|(t & _ & _ & Heq)];
        rewrite Heq; repeat split. }
  destruct Hsettled as [Hsettled Hrest].
  destruct (@resting_run events g Hthree Hsettled Hrest Hquiet)
    as (g' & Hrun & (Hv & Hp & _) & Hemitted & Hcurrent).
  exists g, g'. repeat split; assumption.
Qed.

Lemma player_rests_until_key_press_witness :
  exists g g',
    Game.newTonnetzGame = Returns g
    /\ Game.run [Game.Frame; Game.StartClick; Game.KeyUp (Some Game.KeyW);
                 Game.Resize; Game.KeyDown None; Game.Frame] g = Returns g'
    /\ Game.playerPosition g' = {| Point.x := 0; Point.z := 0 |}
    /\ Game.velocity g' = {| Point.x := 0; Point.z := 0 |}
    /\ Game.emitted g' = Game.emitted g
    /\ Game.currentTriangle g' = Game.currentTriangle g.
Proof.
  apply (@player_rests_until_key_press Game.defaultConfig
           [Game.Frame; Game.StartClick; Game.KeyUp (Some Game.KeyW);
            Game.Resize; Game.KeyDown None; Game.Frame]).
  - simpl. lia.
  - reflexivity.
Defined.

(** ** Highlighting *)

Section Highlight.

Import Game.

Lemma centered_keys (this : Config) :
  map Lattice.keyOf (triangles (Lattice.centered this))
  = Lattice.keysInOrder (gridWidth this) (gridHeight this).
Proof.
  unfold Lattice.centered, createTonnetzGrid. cbn [triangles Lattice.built].
  rewrite map_map.
  rewrite (map_ext _ Lattice.keyOf) by reflexivity.
  apply trianglesOf_keys.
Qed.

(** In the centered list, the triangle at one index has the key of the
    triangle at another only if the two indices are the same. *)
Lemma centered_same_index (this : Config) (i k : nat) (t active : Triangle.t) :
  JS.get (triangles (Lattice.centered this)) i = Some t ->
  JS.get (triangles (Lattice.centered this)) k = Some active ->
  sameTriangle t active = (i =? k)%nat.
Proof.
  unfold JS.get. intros Hi Hk.
  destruct (Nat.eqb_spec i k) as [->|Hne].
  - replace t with active by congruence. apply sameTriangle_refl.
  - destruct (sameTriangle t active) eqn:Hsame; [|reflexivity].
    exfalso. apply Hne.
    pose proof (keysInOrder_NoDup (gridWidth this) (gridHeight this)) as Hnodup.
    rewrite <- centered_keys in Hnodup.
    rewrite NoDup_nth_error in Hnodup. apply Hnodup.
    + rewrite length_map. apply nth_error_Some. congruence.
    + rewrite !nth_error_map, Hi, Hk. cbn [option_map].
      f_equal. now apply sameTriangle_key.
Qed.

Lemma highlightFrom_get {T} (type : T -> triadType) (same : T -> bool)
    (ts : list T) :
  forall meshes index i mesh,
    JS.get meshes i = Some mesh ->
    JS.get (Scene.highlightFrom type same ts index meshes) i
    = Some (match JS.get ts (index + i) with
            | Some t => if same t then Scene.lit (type t) mesh else Scene.unlit mesh
            | None => Scene.unlit mesh
            end).
Proof.
  unfold JS.get.
  induction meshes as [|m meshes IH]; intros index i mesh Hget.
  - destruct i; discriminate.
  - destruct i as [|i]; cbn [Scene.highlightFrom nth_error] in *.
    + injection Hget as ->. now rewrite Nat.add_0_r.
    + rewrite (IH (S index) i mesh Hget).
      now replace (S index + i)%nat with (index + S i)%nat by lia.
Qed.

Lemma highlightFrom_length {T} (type : T -> triadType) (same : T -> bool)
    (ts : list T) :
  forall meshes index,
    List.length (Scene.highlightFrom type same ts index meshes)
    = List.length meshes.
Proof.
  induction meshes as [|m meshes IH]; intros index; simpl; [reflexivity|].
  now rewrite IH.
Qed.

End Highlight.

(** X16. [highlightTriangle], called with a triangle of the centered
    list, lights exactly the mesh at that triangle's index, in the colour
    of its type, and unlights every other mesh, whatever the meshes looked
    like before; the number of meshes does not change. *)
Theorem highlightTriangle_lights_one (this : Game.Config) (k : nat)
    (activeTriangle : Game.Triangle.t) (triangleMeshes : list Scene.Mesh) :
  JS.get (Game.triangles (Lattice.centered this)) k = Some activeTriangle ->
  let highlighted :=
    Scene.highlightTriangle (Game.triangles (Lattice.centered this))
      activeTriangle triangleMeshes in
  List.length highlighted = List.length triangleMeshes
  /\ forall i mesh,
       JS.get triangleMeshes i = Some mesh ->
       JS.get highlighted i
       = Some (if (i =? k)%nat
               then Scene.lit (Game.Triangle.type activeTriangle) mesh
               else Scene.unlit mesh).
Proof.
  intros Hactive highlighted. subst highlighted. unfold Scene.highlightTriangle.
  split; [apply highlightFrom_length|].
  intros i mesh Hmesh.
  rewrite (@highlightFrom_get _ _ _ _ triangleMeshes 0%nat i mesh Hmesh).
  cbn [Nat.add].
  destruct (JS.get (Game.triangles (Lattice.centered this)) i) as [t|] eqn:Hi.
  - rewrite (@centered_same_index this i k t activeTriangle Hi Hactive).
    destruct (Nat.eqb_spec i k) as [->|_]; [|reflexivity].
    now replace t with activeTriangle by congruence.
  - destruct (Nat.eqb_spec i k) as [->|_]; [congruence|reflexivity].
Qed.

(** The minor triangle of cell (0, 0) is the second triangle of the
    game's centered list. *)
Lemma highlightTriangle_lights_one_witness :
  let active :=
    Game.moveTriangle (Game.offsetX Game.defaultConfig)
      (Game.offsetZ Game.defaultConfig) (Lattice.minorAt Game.defaultConfig 0 0) in
  let triangles := Game.triangles (Lattice.centered Game.defaultConfig) in
  let meshes := map (fun t => Scene.meshOf (Game.Triangle.type t)) triangles in
  List.length (Scene.highlightTriangle triangles active meshes) = List.length meshes
  /\ forall i mesh,
       JS.get meshes i = Some mesh ->
       JS.get (Scene.highlightTriangle triangles active meshes) i
       = Some (if (i =? 1)%nat then Scene.lit minor mesh else Scene.unlit mesh).
Proof.
  exact (@highlightTriangle_lights_one Game.defaultConfig 1
           (Game.moveTriangle (Game.offsetX Game.defaultConfig)
              (Game.offsetZ Game.defaultConfig)
              (Lattice.minorAt Game.defaultConfig 0 0))
           (map (fun t => Scene.meshOf (Game.Triangle.type t))
              (Game.triangles (Lattice.centered Game.defaultConfig)))
           eq_refl).
Defined.

(** ** Point location at the edge of the numbers *)

Section NotANumber.

Open Scope float_scope.

Lemma nan_sub_l (y : float) : nan - y = nan.
Proof.
  apply Prim2SF_inj. rewrite sub_spec.
  change (Prim2SF nan) with S754_nan. reflexivity.
Qed.

Lemma nan_sub_r (x : float) : x - nan = nan.
Proof.
  apply Prim2SF_inj. rewrite sub_spec.
  change (Prim2SF nan) with S754_nan.
  destruct (Prim2SF x) as [s|s| |s m e]; reflexivity.
Qed.

Lemma nan_mul_l (y : float) : nan * y = nan.
Proof.
  apply Prim2SF_inj. rewrite mul_spec.
  change (Prim2SF nan) with S754_nan. reflexivity.
Qed.

Lemma nan_mul_r (x : float) : x * nan = nan.
Proof.
  apply Prim2SF_inj. rewrite mul_spec.
  change (Prim2SF nan) with S754_nan.
  destruct (Prim2SF x) as [s|s| |s m e]; reflexivity.
Qed.

Lemma sign_of_nan (a b : Point.t) :
  Locator.sign {| Point.x := nan; Point.z := nan |} a b = nan.
Proof.
  unfold Locator.sign. cbn [Point.x Point.z].
  now rewrite !nan_sub_l, nan_mul_l, nan_mul_r, nan_sub_l.
Qed.

End NotANumber.

(** X17. A position that is not a number is accepted by every triangle
    with three vertices (comparisons with [NaN] are false, so no sign is
    seen), and [findTriangleAtPosition] returns the first triangle of the
    list for it. *)
Theorem nan_position_is_inside (V T : Type) (position : V -> Point.t)
    (vertices : T -> list V) (t : T) (rest : list T) (v0 v1 v2 : V) :
  vertices t = [v0; v1; v2] ->
  Locator.pointInTriangle position vertices nan nan t = Returns true
  /\ Locator.findTriangleAtPosition position vertices (t :: rest) nan nan
     = Returns (Some t).
Proof.
  intros Hv.
  assert (Hinside : Locator.pointInTriangle position vertices nan nan t
                    = Returns true).
  { rewrite (@pointInTriangle_returns _ _ position vertices nan nan _ _ _ _ _ Hv).
    now rewrite !sign_of_nan. }
  split; [exact Hinside|].
  cbn [Locator.findTriangleAtPosition]. rewrite Hinside. reflexivity.
Qed.

Lemma nan_position_is_inside_witness :
  let first :=
    Game.moveTriangle (Game.offsetX Game.defaultConfig)
      (Game.offsetZ Game.defaultConfig) (Lattice.majorAt Game.defaultConfig 0 0) in
  let rest := tl (Game.triangles (Lattice.centered Game.defaultConfig)) in
  Game.triangles (Lattice.centered Game.defaultConfig) = first :: rest
  /\ Game.pointInTriangle nan nan first = Returns true
  /\ Locator.findTriangleAtPosition Game.Vertex.position Game.Triangle.vertices
       (first :: rest) nan nan
     = Returns (Some first).
Proof.
  split; [reflexivity|].
  exact (@nan_position_is_inside _ _ Game.Vertex.position Game.Triangle.vertices
           (Game.moveTriangle (Game.offsetX Game.defaultConfig)
              (Game.offsetZ Game.defaultConfig)
              (Lattice.majorAt Game.defaultConfig 0 0))
           (tl (Game.triangles (Lattice.centered Game.defaultConfig)))
           _ _ _ eq_refl).
Defined.

(** X18. The test does not depend on which vertex of the triangle comes
    first: listing the vertices as v1, v2, v0 instead of v0, v1, v2 gives
    the same answer for every point. *)
Theorem pointInTriangle_rotation (V T : Type) (position : V -> Point.t)
    (vertices : T -> list V) (px pz : float) (t t' : T) (v0 v1 v2 : V) :
  vertices t = [v0; v1; v2] ->
  vertices t' = [v1; v2; v0] ->
  Locator.pointInTriangle position vertices px pz t'
  = Locator.pointInTriangle position vertices px pz t.
Proof.
  intros Hv Hv'.
  rewrite (@pointInTriangle_returns _ _ position vertices px pz _ _ _ _ _ Hv).
  rewrite (@pointInTriangle_returns _ _ position vertices px pz _ _ _ _ _ Hv').
  unfold Locator.hasNeg, Locator.hasPos. f_equal. f_equal.
  repeat match goal with
         | |- context [(?a <? ?b)%float] => destruct (a <? b)%float
         end; reflexivity.
Qed.

(** The first triangle of the game with its vertices listed from the
    second one on. *)
Lemma pointInTriangle_rotation_witness :
  let t := Lattice.majorAt Game.defaultConfig 0 0 in
  let t' :=
    {| Game.Triangle.type := major;
       Game.Triangle.vertices :=
         [Game.mkVertex (Lattice.positionOf Game.defaultConfig 0 1)
            (Game.cellAt Game.defaultConfig 0 1);
          Game.mkVertex (Lattice.positionOf Game.defaultConfig 1 0)
            (Game.cellAt Game.defaultConfig 1 0);
          Game.mkVertex (Lattice.positionOf Game.defaultConfig 0 0)
            (Game.cellAt Game.defaultConfig 0 0)];
       Game.Triangle.center := Game.Triangle.center t;
       Game.Triangle.chord := Game.Triangle.chord t;
       Game.Triangle.chordName := Game.Triangle.chordName t;
       Game.Triangle.row := 0;
       Game.Triangle.col := 0 |} in
  Game.pointInTriangle 1 1 t' = Game.pointInTriangle 1 1 t.
Proof.
  intros t t'.
  exact (@pointInTriangle_rotation _ _ Game.Vertex.position Game.Triangle.vertices
           1%float 1%float t t' _ _ _ eq_refl eq_refl).
Defined.

(** ** The audio system *)

Section AudioFacts.

Import Audio.
Variable pow : float -> float -> float.

Lemma push_voices (now duration : float) :
  forall notes this,
    fold_left (fun (this : AudioSystem) note =>
                 {| masterGain := masterGain this;
                    activeOscillators :=
                      activeOscillators this ++ [voiceOf pow now duration note];
                    initialized := initialized this |})
              notes this
    = {| masterGain := masterGain this;
         activeOscillators :=
           activeOscillators this ++ map (voiceOf pow now duration) notes;
         initialized := initialized this |}.
Proof.
  induction notes as [|note notes IH]; intros this; cbn [fold_left map].
  - rewrite app_nil_r. now destruct this.
  - rewrite IH. cbn [masterGain activeOscillators initialized].
    now rewrite <- app_assoc.
Qed.

(** A chord played on an initialized system replaces whatever was held
    by one voice per note, in the order of the notes. *)
Lemma playChord_voices (notes : list Z) (duration now : float) (this : AudioSystem) :
  initialized this = true ->
  activeOscillators (playChord pow notes duration now this)
  = map (voiceOf pow now duration) notes
  /\ initialized (playChord pow notes duration now this) = true.
Proof.
  intros Hinit. unfold playChord. rewrite Hinit. cbn [negb].
  rewrite push_voices. cbn [stopAll activeOscillators initialized app].
  auto.
Qed.

Lemma perform_held (c : call) (this : AudioSystem) :
  activeOscillators (perform pow c this) = activeOscillators this
  \/ activeOscillators (perform pow c this) = []
  \/ exists notes duration now,
       c = PlayChord notes duration now
       /\ activeOscillators (perform pow c this)
          = map (voiceOf pow now duration) notes.
Proof.
  destruct c as [|notes duration now|]; cbn [perform].
  - left. unfold init. now destruct (initialized this).
  - destruct (initialized this) eqn:Hinit.
    + right. right. exists notes, duration, now.
      split; [reflexivity|]. now apply playChord_voices.
    + left. unfold playChord. now rewrite Hinit.
  - right. left. reflexivity.
Qed.

End AudioFacts.

(** X19. The audio system never accumulates voices: after any sequence of
    [init], [playChord] and [stopAll] calls on a new system, the list
    [activeOscillators] is empty or holds exactly one voice for each note
    of one of the chords played, in the order of its notes. *)
Theorem voices_are_one_chord (pow : float -> float -> float)
    (calls : list Audio.call) :
  let final := Audio.performAll pow calls Audio.newAudioSystem in
  Audio.activeOscillators final = []
  \/ exists notes duration now,
       In (Audio.PlayChord notes duration now) calls
       /\ Audio.activeOscillators final
          = map (Audio.voiceOf pow now duration) notes.
Proof.
  intros final. subst final. unfold Audio.performAll.
  induction calls as [|c calls IH] using rev_ind.
  - left. reflexivity.
  - rewrite fold_left_app. cbn [fold_left].
    destruct (perform_held pow c
                (fold_left (fun this c => Audio.perform pow c this) calls
                   Audio.newAudioSystem))
      as [Hsame|[Hnone|(notes & duration & now & -> & Hplayed)]].
    + rewrite Hsame. destruct IH as [Hempty|(notes & duration & now & Hin & Hheld)].
      * now left.
      * right. exists notes, duration, now. split; [|assumption].
        apply in_or_app. now left.
    + now left.
    + right. exists notes, duration, now. split; [|assumption].
      apply in_or_app. right. now left.
Qed.

(** X20. Before [init] the audio system stays as the constructor left
    it: [playChord] and [stopAll] calls change nothing, no voice is made
    and the flag stays false. *)
Theorem silent_before_init (pow : float -> float -> float)
    (calls : list Audio.call) :
  forallb (fun c => negb (Audio.isInit c)) calls = true ->
  Audio.performAll pow calls Audio.newAudioSystem = Audio.newAudioSystem.
Proof.
  unfold Audio.performAll.
  induction calls as [|c calls IH]; intros Hquiet; cbn [fold_left].
  - reflexivity.
  - cbn [forallb] in Hquiet. apply andb_true_iff in Hquiet as [Hc Hquiet].
    destruct c as [|notes duration now|]; [discriminate| |];
      cbn [Audio.perform]; now apply IH.
Qed.

Lemma silent_before_init_witness :
  Audio.performAll PrimFloat.mul
    [Audio.PlayChord [60; 64; 67] Audio.defaultDuration 0; Audio.StopAll;
     Audio.PlayChord [64; 67; 71] Audio.defaultDuration 1]
    Audio.newAudioSystem
  = Audio.newAudioSystem.
Proof.
  apply silent_before_init. reflexivity.
Defined.

(** ** Note labels *)

Lemma labelled_sound (labels : list (string * Scene.Label)) (v : Game.Vertex.t) :
  Scene.labelled labels v = true ->
  exists key label,
    Scene.keyAt (Game.Vertex.x v) (Game.Vertex.z v) = Some key
    /\ Scene.lookup labels key = Some label
    /\ Scene.labelName label = Game.Vertex.noteName v
    /\ Scene.labelX label = Game.Vertex.x v
    /\ Scene.labelZ label = Game.Vertex.z v.
Proof.
  unfold Scene.labelled.
  destruct (Scene.keyAt _ _) as [key|]; [|discriminate].
  destruct (Scene.lookup labels key) as [label|] eqn:Hfound; [|discriminate].
  intros Hok. apply andb_true_iff in Hok as [Hok Hz].
  apply andb_true_iff in Hok as [Hname Hx].
  exists key, label.
  split; [reflexivity|]. split; [exact Hfound|].
  split; [now apply String.eqb_eq|].
  split; now apply FloatAxioms.Leibniz.eqb_spec.
Qed.

Section CollectFacts.

Variables V L : Type.
Variable position : V -> Point.t.
Variable entry : V -> L.

Lemma has_lookup (map : list (string * L)) (key : string) :
  Scene.has map key = true <-> Scene.lookup map key <> None.
Proof.
  unfold Scene.has, Scene.lookup.
  induction map as [|[k l] map IH]; cbn [existsb find fst].
  - split; [discriminate|]. intros H. now contradiction H.
  - destruct (String.eqb k key); cbn [orb option_map].
    + split; [discriminate|reflexivity].
    + exact IH.
Qed.

Lemma lookup_app (map : list (string * L)) (k key : string) (l : L) :
  Scene.lookup (map ++ [(k, l)]) key
  = match Scene.lookup map key with
    | Some found => Some found
    | None => if String.eqb k key then Some l else None
    end.
Proof.
  unfold Scene.lookup.
  induction map as [|[k' l'] map IH]; cbn [app find fst].
  - now destruct (String.eqb k key).
  - destruct (String.eqb k' key); [reflexivity|exact IH].
Qed.

Lemma collect_none (vertices : list V) :
  fold_left (fun acc v =>
               match acc with
               | None => None
               | Some map =>
                   match Scene.keyAt (Point.x (position v)) (Point.z (position v)) with
                   | None => None
                   | Some key =>
                       if Scene.has map key then Some map
                       else Some (map ++ [(key, entry v)])
                   end
               end)
            vertices None = None.
Proof.
  induction vertices as [|v vertices IH]; [reflexivity|exact IH].
Qed.

Lemma collect_cons (v : V) (vertices : list V) (map : list (string * L)) :
  Scene.collect position entry (v :: vertices) map
  = match Scene.keyOf position v with
    | None => None
    | Some key =>
        Scene.collect position entry vertices
          (if Scene.has map key then map else map ++ [(key, entry v)])
    end.
Proof.
  unfold Scene.collect, Scene.keyOf. cbn [fold_left].
  destruct (Scene.keyAt _ _) as [key|]; [|apply collect_none].
  now destruct (Scene.has map key).
Qed.

(** What the map holds under a key after the loop: what it held before,
    or else the entry of the first vertex with that key. *)
Lemma collect_lookup :
  forall vertices map labels,
    Scene.collect position entry vertices map = Some labels ->
    forall key,
      Scene.lookup labels key
      = match Scene.lookup map key with
        | Some found => Some found
        | None => option_map entry (find (Scene.keyed position key) vertices)
        end.
Proof.
  induction vertices as [|v vertices IH]; intros map labels Hcollect key.
  - injection Hcollect as <-. now destruct (Scene.lookup map key).
  - rewrite collect_cons in Hcollect. cbn [find]. unfold Scene.keyed at 1.
    destruct (Scene.keyOf position v) as [k|]; [|discriminate].
    rewrite (IH _ _ Hcollect key).
    destruct (Scene.has map k) eqn:Hhas.
    + destruct (Scene.lookup map key) eqn:Hfound; [reflexivity|].
      destruct (String.eqb_spec k key) as [->|_]; [|reflexivity].
      apply has_lookup in Hhas. now contradiction Hhas.
    + rewrite lookup_app.
      destruct (Scene.lookup map key); [reflexivity|].
      now destruct (String.eqb k key).
Qed.

Lemma collect_keys :
  forall vertices map labels,
    Scene.collect position entry vertices map = Some labels ->
    NoDup (List.map fst map) -> NoDup (List.map fst labels).
Proof.
  induction vertices as [|v vertices IH]; intros map labels Hcollect Hmap.
  - now injection Hcollect as <-.
  - rewrite collect_cons in Hcollect.
    destruct (Scene.keyOf position v) as [k|]; [|discriminate].
    apply (IH _ _ Hcollect).
    destruct (Scene.has map k) eqn:Hhas; [assumption|].
    rewrite map_app. cbn [List.map fst].
    apply NoDup_app; [assumption|repeat constructor; now intros []|].
    intros key Hin [->|[]].
    apply in_map_iff in Hin as ([k' l] & Hk & Hin). cbn [fst] in Hk. subst k'.
    unfold Scene.has in Hhas.
    assert (Htrue : existsb (fun entry => String.eqb (fst entry) key) map = true).
    { apply existsb_exists. exists (key, l). split; [assumption|].
      cbn [fst]. apply String.eqb_refl. }
    congruence.
Qed.

Lemma collect_keyed :
  forall vertices map labels,
    Scene.collect position entry vertices map = Some labels ->
    forall v, In v vertices -> exists key, Scene.keyOf position v = Some key.
Proof.
  induction vertices as [|v0 vertices IH]; intros map labels Hcollect v Hin.
  - destruct Hin.
  - rewrite collect_cons in Hcollect.
    destruct (Scene.keyOf position v0) as [k|] eqn:Hk; [|discriminate].
    destruct Hin as [<-|Hin]; [now exists k|].
    exact (IH _ _ Hcollect v Hin).
Qed.

End CollectFacts.

(** X21. [addNoteLabels] keeps one label per key, and the label of a key
    is that of the first vertex, in the order of the triangles and of
    their vertices, whose coordinates print to that key; a later vertex
    with the same key never replaces it.  Every vertex of every triangle
    therefore finds a label under its key: the label of the first vertex
    that shares the key. *)
Theorem addNoteLabels_keeps_first (tonnetz : Game.TonnetzSystem)
    (labels : list (string * Scene.Label)) :
  Scene.addNoteLabels tonnetz = Some labels ->
  let vertices := flat_map Game.Triangle.vertices (Game.triangles tonnetz) in
  NoDup (List.map fst labels)
  /\ (forall key,
        Scene.lookup labels key
        = option_map Scene.labelOf (find (Scene.keyed Game.Vertex.position key) vertices))
  /\ (forall t v,
        In t (Game.triangles tonnetz) -> In v (Game.Triangle.vertices t) ->
        exists key first,
          Scene.keyAt (Game.Vertex.x v) (Game.Vertex.z v) = Some key
          /\ find (Scene.keyed Game.Vertex.position key) vertices = Some first
          /\ Scene.lookup labels key = Some (Scene.labelOf first)).
Proof.
  intros Hlabels vertices. unfold Scene.addNoteLabels in Hlabels.
  fold vertices in Hlabels.
  assert (Hlookup : forall key,
            Scene.lookup labels key
            = option_map Scene.labelOf
                (find (Scene.keyed Game.Vertex.position key) vertices)).
  { intros key. now rewrite (collect_lookup _ _ _ _ Hlabels key). }
  split; [|split].
  - apply (collect_keys _ _ _ _ Hlabels). constructor.
  - exact Hlookup.
  - intros t v Ht Hv.
    assert (Hin : In v vertices).
    { apply in_flat_map. now exists t. }
    destruct (collect_keyed _ _ _ _ Hlabels v Hin) as (key & Hkey).
    destruct (find (Scene.keyed Game.Vertex.position key) vertices) as [first|] eqn:Hfirst.
    + exists key, first. split; [exact Hkey|]. split; [exact Hfirst|].
      now rewrite Hlookup, Hfirst.
    + exfalso. apply (find_none _ _ Hfirst) in Hin.
      unfold Scene.keyed in Hin. rewrite Hkey, String.eqb_refl in Hin. discriminate.
Qed.

Lemma addNoteLabels_keeps_first_witness :
  let tonnetz := Lattice.centered Game.defaultConfig in
  let labels :=
    match Scene.addNoteLabels tonnetz with Some labels => labels | None => [] end in
  let vertices := flat_map Game.Triangle.vertices (Game.triangles tonnetz) in
  NoDup (List.map fst labels)
  /\ (forall key,
        Scene.lookup labels key
        = option_map Scene.labelOf
            (find (Scene.keyed Game.Vertex.position key) vertices))
  /\ (forall t v,
        In t (Game.triangles tonnetz) -> In v (Game.Triangle.vertices t) ->
        exists key first,
          Scene.keyAt (Game.Vertex.x v) (Game.Vertex.z v) = Some key
          /\ find (Scene.keyed Game.Vertex.position key) vertices = Some first
          /\ Scene.lookup labels key = Some (Scene.labelOf first)).
Proof.
  intros tonnetz labels.
  assert (Hlabels : Scene.addNoteLabels tonnetz = Some labels)
    by (vm_compute; reflexivity).
  exact (@addNoteLabels_keeps_first tonnetz labels Hlabels).
Defined.

(** X22. With the names, the intervals and the triangle size 3 of the
    constructor, at every grid size from 1 x 1 up to the 12 x 8 of the
    game, the keys tell the grid positions apart: [addNoteLabels] makes
    (gridWidth + 1) * (gridHeight + 1) labels, and every vertex of every
    triangle finds under its own key a label at its own position that
    carries its own note name. *)
Theorem labels_match_vertices (config : Game.Config) :
  Game.pitchClassToName config = Game.flatNames ->
  Game.noteNames config = Game.flatNames ->
  Game.triangleSize config = 3%float ->
  Game.fifthInterval config = 7 ->
  Game.majorThirdInterval config = 4 ->
  Game.minorThirdInterval config = 3 ->
  (1 <= Game.gridWidth config <= 12)%nat ->
  (1 <= Game.gridHeight config <= 8)%nat ->
  exists g labels,
    Game.constructGame config = Returns g
    /\ Scene.addNoteLabels (Game.tonnetz g) = Some labels
    /\ List.length labels
       = ((Game.gridWidth config + 1) * (Game.gridHeight config + 1))%nat
    /\ Forall (fun t =>
         Forall (fun v =>
           exists key label,
             Scene.keyAt (Game.Vertex.x v) (Game.Vertex.z v) = Some key
             /\ Scene.lookup labels key = Some label
             /\ Scene.labelName label = Game.Vertex.noteName v
             /\ Scene.labelX label = Game.Vertex.x v
             /\ Scene.labelZ label = Game.Vertex.z v)
         (Game.Triangle.vertices t))
       (Game.triangles (Game.tonnetz g)).
Proof.
  intros Hnames Hnames' Hsize Hfifth Hmajor Hminor Hwidth Hheight.
  destruct config as [names names' w h size fifth majorThird minorThird].
  cbn [Game.pitchClassToName Game.noteNames Game.triangleSize
       Game.fifthInterval Game.majorThirdInterval Game.minorThirdInterval
       Game.gridWidth Game.gridHeight] in *.
  subst names names' size fifth majorThird minorThird.
  set (config := fun w h =>
         {| Game.pitchClassToName := Game.flatNames;
            Game.noteNames := Game.flatNames;
            Game.gridWidth := w; Game.gridHeight := h;
            Game.triangleSize := 3%float;
            Game.fifthInterval := 7; Game.majorThirdInterval := 4;
            Game.minorThirdInterval := 3 |}).
  change (exists g labels,
            Game.constructGame (config w h) = Returns g
            /\ Scene.addNoteLabels (Game.tonnetz g) = Some labels
            /\ List.length labels = ((w + 1) * (h + 1))%nat
            /\ Forall (fun t =>
                 Forall (fun v =>
                   exists key label,
                     Scene.keyAt (Game.Vertex.x v) (Game.Vertex.z v) = Some key
                     /\ Scene.lookup labels key = Some label
                     /\ Scene.labelName label = Game.Vertex.noteName v
                     /\ Scene.labelX label = Game.Vertex.x v
                     /\ Scene.labelZ label = Game.Vertex.z v)
                 (Game.Triangle.vertices t))
               (Game.triangles (Game.tonnetz g))).
  set (checked := fun w h =>
         match Scene.addNoteLabels (Lattice.centered (config w h)) with
         | Some labels =>
             (List.length labels =? (w + 1) * (h + 1))%nat
             && forallb (fun t =>
                           forallb (Scene.labelled labels) (Game.Triangle.vertices t))
                  (Game.triangles (Lattice.centered (config w h)))
         | None => false
         end).
  assert (Hall : forallb (fun w => forallb (checked w) (seq 1 8)) (seq 1 12) = true)
    by (vm_compute; reflexivity).
  rewrite forallb_forall in Hall.
  assert (Hw : In w (seq 1 12)) by (apply in_seq; lia).
  specialize (Hall w Hw). rewrite forallb_forall in Hall.
  assert (Hh : In h (seq 1 8)) by (apply in_seq; lia).
  specialize (Hall h Hh). unfold checked in Hall.
  destruct (@constructGame_returns (config w h)) as (g & Hg & Htonnetz);
    [unfold config; cbn [Game.gridHeight]; lia|].
  exists g. rewrite Htonnetz.
  destruct (Scene.addNoteLabels (Lattice.centered (config w h)))
    as [labels|]; [|discriminate].
  exists labels. split; [exact Hg|]. split; [reflexivity|].
  apply andb_true_iff in Hall as [Hcount Hall].
  split; [now apply Nat.eqb_eq|].
  apply Forall_forall. intros t Ht. apply Forall_forall. intros v Hv.
  apply labelled_sound.
  rewrite forallb_forall in Hall. specialize (Hall t Ht).
  rewrite forallb_forall in Hall. exact (Hall v Hv).
Qed.

Lemma labels_match_vertices_witness :
  exists g labels,
    Game.constructGame Game.defaultConfig = Returns g
    /\ Scene.addNoteLabels (Game.tonnetz g) = Some labels
    /\ List.length labels = 117%nat
    /\ Forall (fun t =>
         Forall (fun v =>
           exists key label,
             Scene.keyAt (Game.Vertex.x v) (Game.Vertex.z v) = Some key
             /\ Scene.lookup labels key = Some label
             /\ Scene.labelName label = Game.Vertex.noteName v
             /\ Scene.labelX label = Game.Vertex.x v
             /\ Scene.labelZ label = Game.Vertex.z v)
         (Game.Triangle.vertices t))
       (Game.triangles (Game.tonnetz g)).
Proof.
  apply (@labels_match_vertices Game.defaultConfig);
    try reflexivity; cbn [Game.defaultConfig Game.gridWidth Game.gridHeight]; lia.
Defined.

(** X23. In the second copy as shipped, [addNoteLabels] makes 120 labels
    for the 117 grid positions, and a label can carry another note than
    the vertex drawn there: the second vertex of the major triangle of cell
    (2, 0) has pitch class 3, and the label kept under its key has pitch
    class 8. *)
Theorem variant_labels_disagree :
  exists g labels t v key label,
    Variant.newTonnetzGame = Returns g
    /\ Scene.variantAddNoteLabels (Variant.tonnetz g) = Some labels
    /\ List.length labels = 120%nat
    /\ JS.get (Variant.triangles (Variant.tonnetz g)) 48 = Some t
    /\ VariantLattice.keyOf t = (2%nat, 0%nat, major)
    /\ JS.get (Variant.Triangle.vertices t) 1 = Some v
    /\ Variant.Vertex.pitchClass v = VNum 3
    /\ Scene.keyAt (Variant.Vertex.x v) (Variant.Vertex.z v) = Some key
    /\ Scene.lookup labels key = Some label
    /\ Variant.Vertex.pitchClass label = VNum 8.
Proof.
  destruct (variant_constructGame_returns Variant.defaultConfig)
    as (g & Hg & Htonnetz).
  exists g. rewrite Htonnetz.
  do 5 eexists. split; [exact Hg|].
  split; [vm_compute; reflexivity|].
  split; [reflexivity|].
  split; [vm_compute; reflexivity|].
  split; [reflexivity|].
  split; [reflexivity|].
  split; [reflexivity|].
  split; [vm_compute; reflexivity|].
  split; vm_compute; reflexivity.
Qed.
